(** * navis.core.core_utils: dotprops construction, unit conversion and the
    batch applier

    A shallow embedding of [make_dotprops], [to_neuron_space] and
    [NeuronProcessor.__call__] from [navis/core/core_utils.py].

    - numpy [float64] scalars are IEEE 754 binary64 values ([spec_float]
      with precision 53 and maximal exponent 1024);
    - the libraries the module calls into (scipy's [cKDTree], numpy's
      [linalg.svd], [trimesh], [pint], and navis' own [graph] and neuron
      methods) are external calls: a program is a tree of such calls, and
      it is run against a [handler] that gives each call its answer, or the
      exception it raises;
    - the logger of [NeuronProcessor.__call__] is explicit state. *)

From Stdlib Require Import ZArith Lia Bool.
From Stdlib Require Import Floats.SpecFloat.
From stdpp Require Import base option list sorting strings gmap.

Set Warnings "-register-all".

Local Open Scope Z_scope.

(** ** numpy float64 *)

Module F64.

Definition prec : Z := 53.
Definition emax : Z := 1024.

Definition add : spec_float -> spec_float -> spec_float := SFadd prec emax.
Definition sub : spec_float -> spec_float -> spec_float := SFsub prec emax.
Definition mul : spec_float -> spec_float -> spec_float := SFmul prec emax.
Definition div : spec_float -> spec_float -> spec_float := SFdiv prec emax.

Definition zero : spec_float := S754_zero false.
Definition nan : spec_float := S754_nan.
Definition inf : spec_float := S754_infinity false.

(** The float nearest to an integer ([float(n)]). *)
Definition of_Z (n : Z) : spec_float := binary_normalize prec emax n 0 false.

Definition one : spec_float := of_Z 1.

(** [np.isnan]. *)
Definition is_nan (x : spec_float) : bool :=
  match x with S754_nan => true | _ => false end.

(** [np.isfinite]. *)
Definition is_finite (x : spec_float) : bool :=
  match x with S754_zero _ | S754_finite _ _ _ => true | _ => false end.

Definition is_zero (x : spec_float) : bool :=
  match x with S754_zero _ => true | _ => false end.

Definition leb : spec_float -> spec_float -> bool := SFleb.
Definition ltb : spec_float -> spec_float -> bool := SFltb.
Definition eqb : spec_float -> spec_float -> bool := SFeqb.

(** A float that a float64 array can hold: zeros, infinities, NaN, and
    finite values in canonical form. *)
Definition valid (x : spec_float) : bool := valid_binary prec emax x.

(** Left-to-right summation, as in a reduction loop over a short axis. *)
Definition sum (l : list spec_float) : spec_float := foldl add zero l.

End F64.

Abbreviation f64 := spec_float.

#[global] Instance spec_float_eq_dec : EqDecision spec_float.
Proof. solve_decision. Defined.

(** ** Arrays *)

(** A row of an [(N, 3)] array, and a [(3, 3)] matrix as its three rows. *)
Definition vec3 : Type := f64 * f64 * f64.
Definition mat3 : Type := vec3 * vec3 * vec3.

(** A numpy array of float64: its shape and its elements in C order. *)
Record ndarray := Ndarray { shape : list nat; data : list f64 }.

Definition ndim (a : ndarray) : nat := length (shape a).

Definition wf_ndarray (a : ndarray) : Prop :=
  length (data a) = foldr Nat.mul 1%nat (shape a).

(** The rows of an array whose second axis has length 3. *)
Fixpoint rows3 (l : list f64) : list vec3 :=
  match l with
  | a :: b :: c :: l' => (a, b, c) :: rows3 l'
  | _ => []
  end.

Definition of_rows3 (l : list vec3) : ndarray :=
  Ndarray [length l; 3%nat] (l ≫= λ '(a, b, c), [a; b; c]).

(** What [tree.query] returns for the indices: an array of shape [(N, k)],
    or of shape [(N,)] when scipy squeezes the last axis. *)
Inductive index_array :=
| Ix1 (ix : list nat)
| Ix2 (ix : list (list nat)).

(** One [(u, s, vh)] of the stack that [np.linalg.svd] returns. *)
Record svd3 := Svd3 { svd_u : mat3; svd_s : vec3; svd_vh : mat3 }.

(** ** Exceptions *)

Inductive exn :=
| ValueError (msg : string)
| TypeError (msg : string)
| IndexError (msg : string)
| ImportError (msg : string)
| LibError (cls : string) (msg : string).

Definition is_ValueError (e : exn) : bool :=
  match e with ValueError _ => true | _ => false end.

(** What a call returns: a value, or the exception it raises. *)
Inductive result (A : Type) : Type :=
| Ok (a : A)
| Err (e : exn).

Arguments Ok {A} a.
Arguments Err {A} e.

#[global] Instance result_ret : MRet result := λ A, @Ok A.
#[global] Instance result_bind : MBind result :=
  λ A B f r, match r with Ok a => f a | Err e => Err e end.

(** ** Units, neurons and the inputs of [make_dotprops] *)

(** A [pint.Quantity] or [pint.Unit]: [pint_dimensionless] is the value of
    its [.dimensionless] property. *)
Record pint_obj := Pint {
  pint_is_unit : bool;
  pint_magnitude : f64;
  pint_units : string;
  pint_dimensionless : bool
}.

Record TreeNeuron := MkTreeNeuron {
  tn_units : pint_obj;
  tn_name : string;
  tn_id : Z;
  tn_nodes : list vec3          (* nodes[['x', 'y', 'z']].values *)
}.

Record MeshNeuron := MkMeshNeuron {
  mn_units : pint_obj;
  mn_name : string;
  mn_id : Z;
  mn_vertices : ndarray
}.

(** A [pandas.DataFrame] of float columns. *)
Record DataFrame := MkDataFrame {
  df_nrows : nat;
  df_columns : list (string * list f64)
}.

Inductive source :=
| SNeuronList (l : list source)
| SDataFrame (df : DataFrame)
| STreeNeuron (n : TreeNeuron)
| SMeshNeuron (n : MeshNeuron)
| SArray (a : ndarray)
| SOther (type_name : string).

(** The [resample] argument. *)
Inductive resample_arg :=
| RNone
| RBool (b : bool)
| RNum (v : f64)
| RStr (s : string)
| ROther (type_name : string).

(** Python truthiness of [resample]. *)
Definition truthy (r : resample_arg) : bool :=
  match r with
  | RNone => false
  | RBool b => b
  | RNum v => negb (F64.is_zero v)
  | RStr s => negb (bool_decide (s = EmptyString))
  | ROther _ => true
  end.

Record Dotprops := MkDotprops {
  dp_points : list vec3;
  dp_vect : list vec3;
  dp_length : option (list f64);
  dp_alpha : option (list f64);
  dp_k : option Z;
  dp_units : option pint_obj;
  dp_name : option string;
  dp_id : option Z
}.

Inductive dotprops_result :=
| OneDotprops (d : Dotprops)
| ManyDotprops (l : list dotprops_result).

(** The [properties] dict of [make_dotprops], before ['k'] is added. *)
Record properties := MkProperties {
  pr_units : option pint_obj;
  pr_name : option string;
  pr_id : option Z
}.

Definition no_properties : properties := MkProperties None None None.

(** ** External calls and programs *)

(** The calls that leave the module; the index is the type of the answer.
    [Resample] is [x.resample(resample_to=resample, inplace=False)],
    [RemoveClose] is [tm.points.remove_close], [CKDTreeQuery x k] is
    [cKDTree(x).query(x, k=k)] (the indices; the distances are not used),
    [PintQuantity] is [pint.Quantity(str)] and [PintTo] is [units.to]. *)
Inductive call : Type -> Type :=
| Resample (n : TreeNeuron) (r : resample_arg) : call TreeNeuron
| Neuron2tangents (n : TreeNeuron) : call (list vec3 * list vec3 * list f64)
| RemoveClose (v : ndarray) (r : resample_arg) : call ndarray
| CKDTreeQuery (x : list vec3) (k : Z) : call index_array
| LinalgSvd (a : list mat3) : call (list svd3)
| PintQuantity (s : string) : call pint_obj
| PintTo (q target : pint_obj) : call pint_obj
| RoundSmart (mag : f64) : call f64.

Inductive prog (R : Type) : Type :=
| Ret (r : R)
| Raise (e : exn)
| Call {A : Type} (c : call A) (k : A -> prog R).

Arguments Ret {R} r.
Arguments Raise {R} e.
Arguments Call {R A} c k.

Fixpoint bind {A B} (p : prog A) (f : A -> prog B) : prog B :=
  match p with
  | Ret a => f a
  | Raise e => Raise e
  | Call c k => Call c (λ a, bind (k a) f)
  end.

#[global] Instance prog_ret : MRet prog := λ A, @Ret A.
#[global] Instance prog_bind : MBind prog := λ A B f p, bind p f.
#[global] Instance prog_fmap : FMap prog := λ A B f p, bind p (λ a, Ret (f a)).

Definition perform {A} (c : call A) : prog A := Call c Ret.

(** A value or an exception of pure numpy code, as a program. *)
Definition lift {A} (r : result A) : prog A :=
  match r with Err e => Raise e | Ok a => Ret a end.

(** The behaviour of the libraries: what each call answers or raises. *)
Definition handler : Type := ∀ A, call A -> result A.

Fixpoint run {R} (h : handler) (p : prog R) : result R :=
  match p with
  | Ret r => Ok r
  | Raise e => Err e
  | Call c k =>
      match h _ c with
      | Err e => Err e
      | Ok a => run h (k a)
      end
  end.

(** [invokes P p]: on some answers of the libraries, [p] makes a call
    that satisfies [P]. *)
Fixpoint invokes {R} (P : ∀ A, call A -> Prop) (p : prog R) : Prop :=
  match p with
  | Call c k => P _ c ∨ ∃ a, invokes P (k a)
  | _ => False
  end.

(** The nearest-neighbour queries that [p] makes, in order, when the
    libraries behave as [h]: the points and the [k] of each. *)
Fixpoint queries {R} (h : handler) (p : prog R) : list (list vec3 * Z) :=
  match p with
  | Call c k =>
      match c with CKDTreeQuery x n => [(x, n)] | _ => [] end
      ++ match h _ c with
         | Ok a => queries h (k a)
         | Err _ => []
         end
  | _ => []
  end.

Definition is_knn_svd (A : Type) (c : call A) : Prop :=
  match c with
  | CKDTreeQuery _ _ | LinalgSvd _ => True
  | _ => False
  end.

(** ** [make_dotprops] *)

Definition vsub (p c : vec3) : vec3 :=
  let '(px, py, pz) := p in
  let '(cx, cy, cz) := c in
  (F64.sub px cx, F64.sub py cy, F64.sub pz cz).

Definition coords (p : vec3) : list f64 := let '(a, b, c) := p in [a; b; c].

Definition row_has_nan (p : vec3) : bool := existsb F64.is_nan (coords p).

(** [x[~np.any(np.isnan(x), axis=1)]] *)
Definition dropna (x : list vec3) : list vec3 :=
  filter (λ p, row_has_nan p = false) x.

(** [x[ix]] for one row of indices. *)
Definition take_rows (x : list vec3) (ix : list nat) : result (list vec3) :=
  mapM (λ i, match x !! i with
             | Some p => Ok p
             | None => Err (IndexError "index is out of bounds for axis 0")
             end) ix.

(** [np.mean(pt, axis=1)] for one neighbourhood: the sum over its points,
    divided by their number. *)
Definition centroid (nb : list vec3) : vec3 :=
  let n := F64.of_Z (Z.of_nat (length nb)) in
  (F64.div (F64.sum (nb.*1.*1)) n,
   F64.div (F64.sum (nb.*1.*2)) n,
   F64.div (F64.sum (nb.*2)) n).

(** [pt - centers.reshape((N, 1, 3))] for one neighbourhood. *)
Definition centered (nb : list vec3) : list vec3 :=
  (λ p, vsub p (centroid nb)) <$> nb.

(** One entry of [cpt.T @ cpt]: the sum over the neighbourhood of the
    products of two coordinates. *)
Definition dot_col (f g : vec3 -> f64) (cpt : list vec3) : f64 :=
  F64.sum ((λ d, F64.mul (f d) (g d)) <$> cpt).

Definition cx (p : vec3) : f64 := p.1.1.
Definition cy (p : vec3) : f64 := p.1.2.
Definition cz (p : vec3) : f64 := p.2.

(** [cpt.transpose((0, 2, 1)) @ cpt] for one neighbourhood.  Each entry is
    summed left to right over the neighbourhood; the matrix product of
    numpy may associate the sum differently, which can change the last bit
    of an entry, but not a sum whose terms are all zero. *)
Definition inertia (cpt : list vec3) : mat3 :=
  ((dot_col cx cx cpt, dot_col cx cy cpt, dot_col cx cz cpt),
   (dot_col cy cx cpt, dot_col cy cy cpt, dot_col cy cz cpt),
   (dot_col cz cx cpt, dot_col cz cy cpt, dot_col cz cz cpt)).

(** [(s[:, 0] - s[:, 1]) / np.sum(s, axis=1)] for one point. *)
Definition alpha_of (s : vec3) : f64 :=
  F64.div (F64.sub (cx s) (cy s)) (F64.sum (coords s)).

(** [vh[:, 0, :]] for one point. *)
Definition vect_of (vh : mat3) : vec3 := vh.1.1.

(** Lines 143 to 157: the neighbourhoods of the points and their inertia
    matrices, from the answer of the nearest-neighbour query.  With a
    squeezed answer, [pt] is [(M, 3)] and [centers] is [(M,)], which
    [reshape((M, 1, 3))] accepts only when [M = 0]. *)
Definition inertia_stack (x : list vec3) (ix : index_array)
  : result (list mat3) :=
  match ix with
  | Ix2 rows =>
      pt ← mapM (take_rows x) rows;
      mret ((λ nb, inertia (centered nb)) <$> pt)
  | Ix1 idx =>
      pt ← take_rows x idx;
      if bool_decide (length pt = 0%nat) then mret []
      else Err (ValueError "cannot reshape array into shape (N, 1, 3)")
  end.

(** Lines 125 to 164: from the coordinate array on. *)
Definition knn_dotprops (pr : properties) (x : ndarray) (k : option Z)
  : prog Dotprops :=
  if negb (bool_decide (ndim x = 2%nat))
     || negb (bool_decide (shape x !! 1%nat = Some 3%nat))
  then Raise (ValueError "Expected input of shape (N, 3)")
  else match k with
  | None => Raise (ValueError "`k` must be > 0 when converting non-TreeNeurons to Dotprops.")
  | Some k =>
      if k <=? 0
      then Raise (ValueError "`k` must be > 0 when converting non-TreeNeurons to Dotprops.")
      else
        let x := dropna (rows3 (data x)) in
        let n_points := Z.of_nat (length x) in
        let k := Z.min n_points k in
        ix ← perform (CKDTreeQuery x k);
        inertia ← lift (inertia_stack x ix);
        usv ← perform (LinalgSvd inertia);
        let vect := (λ r, vect_of (svd_vh r)) <$> usv in
        let alpha := (λ r, alpha_of (svd_s r)) <$> usv in
        mret (MkDotprops x vect None (Some alpha) (Some k)
                         (pr_units pr) (pr_name pr) (pr_id pr))
  end.

(** Modelled from the spec: [utils.eval_param] is not part of this file;
    it is the type assertion of the validation helper ([resample] must be
    a number, [None] or a string), failing with a validation error. *)
Definition eval_param_resample (r : resample_arg) : result () :=
  match r with
  | ROther _ => Err (TypeError "Unexpected type for resample")
  | _ => Ok ()
  end.

Definition has_column (df : DataFrame) (name : string) : bool :=
  bool_decide (name ∈ (df_columns df).*1).

(** [x[['x', 'y', 'z']].values]: every column with one of the labels, in
    the order of the labels, as an array of shape [(nrows, columns)]. *)
Definition df_xyz (df : DataFrame) : ndarray :=
  let cols := ["x"; "y"; "z"] ≫= λ name,
                (filter (λ c, c.1 = name) (df_columns df)).*2 in
  Ndarray [df_nrows df; length cols]
          (seq 0 (df_nrows df) ≫= λ r, (λ c, default F64.nan (c !! r)) <$> cols).

(** [isinstance(k, type(None)) or k <= 0] *)
Definition k_unset (k : option Z) : bool :=
  match k with None => true | Some k => k <=? 0 end.

Fixpoint make_dotprops (x : source) (k : option Z) (resample : resample_arg)
  {struct x} : prog dotprops_result :=
  _ ← lift (eval_param_resample resample);
  match x with
  | SNeuronList l =>
      res ← (fix each (l : list source) : prog (list dotprops_result) :=
               match l with
               | [] => mret []
               | n :: l' =>
                   r ← make_dotprops n k resample;
                   rs ← each l';
                   mret (r :: rs)
               end) l;
      mret (ManyDotprops res)
  | SDataFrame df =>
      if forallb (has_column df) ["x"; "y"; "z"]
      then OneDotprops <$> knn_dotprops no_properties (df_xyz df) k
      else Raise (ValueError "DataFrame must contain x, y and z columns.")
  | STreeNeuron n =>
      x ← (if truthy resample then perform (Resample n resample) else mret n);
      let pr := MkProperties (Some (tn_units x)) (Some (tn_name x))
                             (Some (tn_id x)) in
      if k_unset k then
        '(points, vect, length) ← perform (Neuron2tangents x);
        mret (OneDotprops (MkDotprops points vect (Some length) None None
                                      (pr_units pr) (pr_name pr) (pr_id pr)))
      else OneDotprops <$> knn_dotprops pr (of_rows3 (tn_nodes x)) k
  | SMeshNeuron n =>
      let pr := MkProperties (Some (mn_units n)) (Some (mn_name n))
                             (Some (mn_id n)) in
      x ← (if truthy resample
           then perform (RemoveClose (mn_vertices n) resample)
           else mret (mn_vertices n));
      OneDotprops <$> knn_dotprops pr x k
  | SArray a => OneDotprops <$> knn_dotprops no_properties a k
  | SOther t => Raise (TypeError "Unable to generate dotprops from data of this type")
  end.

(** ** [to_neuron_space] *)

(** The [units] argument: a string, a pint object, or anything else (a
    plain number). *)
Inductive units_arg :=
| UStr (s : string)
| UPint (q : pint_obj)
| UNum (v : f64).

(** The [neuron] argument: a [BaseNeuron] with its [.units], or an object
    of another type. *)
Inductive neuron_arg :=
| ANeuron (units : pint_obj)
| ANotNeuron (type_name : string).

(** Modelled from the spec: [utils.eval_param] is not part of this file;
    [on_error] must be one of the allowed values and [neuron] of the
    allowed type, anything else is a validation error. *)
Definition eval_param_on_error (on_error : string) : result () :=
  if bool_decide (on_error ∈ ["ignore"; "raise"]) then Ok ()
  else Err (ValueError "Unexpected value for on_error").

Definition eval_param_neuron (n : neuron_arg) : result pint_obj :=
  match n with
  | ANeuron u => Ok u
  | ANotNeuron _ => Err (TypeError "Unexpected type for neuron")
  end.

(** [.magnitude], which a [pint.Unit] does not have. *)
Definition magnitude (q : pint_obj) : result f64 :=
  if pint_is_unit q
  then Err (LibError "AttributeError" "Unit object has no attribute magnitude")
  else Ok (pint_magnitude q).

(** Lines 224 to 245: the conversion of a pint object.  The magnitudes
    are Python numbers, whose division raises on a zero divisor. *)
Definition to_units_of (nunits units : pint_obj) (on_error : string)
  : prog units_arg :=
  if pint_dimensionless nunits then
    if bool_decide (on_error = "raise")
    then Raise (ValueError "Neuron units unknown or dimensionless - unable to convert")
    else mret (UPint units)
  else if pint_dimensionless units then
    UNum <$> lift (magnitude units)
  else
    units ← perform (PintTo units nunits);
    m ← lift (magnitude units);
    n ← lift (magnitude nunits);
    if F64.is_zero n
    then Raise (LibError "ZeroDivisionError" "division by zero")
    else UNum <$> perform (RoundSmart (F64.div m n)).

Definition to_neuron_space (units : units_arg) (neuron : neuron_arg)
  (on_error : string) : prog units_arg :=
  _ ← lift (eval_param_on_error on_error);
  nunits ← lift (eval_param_neuron neuron);
  match units with
  | UStr s =>
      units ← perform (PintQuantity s);
      to_units_of nunits units on_error
  | UPint units => to_units_of nunits units on_error
  | UNum v => mret (UNum v)
  end.

(** ** [NeuronProcessor] *)

(** Python values that reach the batch applier as arguments and results. *)
Inductive value :=
| VNone
| VBool (b : bool)
| VInt (n : Z)
| VStr (s : string)
| VNeuron (id : Z)
| VNeuronList (l : list value)
| VList (l : list value).

(** Modelled from the spec: [utils.is_iterable] is not part of this file;
    it is the predicate "is this a sequence distinct from a scalar" of the
    validation helper. *)
Definition is_iterable (v : value) : bool :=
  match v with
  | VList _ | VNeuronList _ => true
  | _ => false
  end.

(** The elements of a sequence, for [len] and indexing. *)
Definition elements (v : value) : list value :=
  match v with
  | VList l | VNeuronList l => l
  | _ => []
  end.

Definition value_truthy (v : value) : bool :=
  match v with
  | VNone => false
  | VBool b => b
  | VInt n => negb (n =? 0)
  | VStr s => negb (bool_decide (s = EmptyString))
  | VNeuron _ => true
  | VNeuronList l | VList l => negb (bool_decide (l = []))
  end.

(** The logger [config.logger]: its own level ([0] is [NOTSET]), the
    effective level of its ancestors, and the records it has emitted. *)
Record logger := MkLogger {
  level : Z;
  parent_level : Z;
  emitted : list string
}.

Definition WARNING : Z := 30.

Definition getEffectiveLevel (lg : logger) : Z :=
  if level lg =? 0 then parent_level lg else level lg.

Definition setLevel (lv : Z) (lg : logger) : logger :=
  MkLogger lv (parent_level lg) (emitted lg).

(** [logger.warning(msg)]: emitted when the effective level lets warnings
    through. *)
Definition warning (msg : string) (lg : logger) : logger :=
  if getEffectiveLevel lg <=? WARNING
  then MkLogger (level lg) (parent_level lg) (emitted lg ++ [msg])
  else lg.

(** A callable: from its positional and keyword arguments and the logger
    to what it returns or raises, and the logger it leaves. *)
Definition pyfunc : Type :=
  list value -> gmap string value -> logger -> result value * logger.

Record NeuronProcessor := MkNeuronProcessor {
  np_nl : list value;
  np_funcs : list pyfunc;
  np_function : pyfunc;
  np_parallel : bool;
  np_n_cores : value;
  np_chunksize : value;
  np_warn_inplace : bool
}.

(** The [function] argument of the constructor. *)
Inductive function_arg :=
| FCallable (f : pyfunc)
| FList (fs : list pyfunc)
| FOther (type_name : string).

(** [NeuronProcessor.__init__] *)
Definition init (nl : list value) (function : function_arg)
  (parallel : bool) (n_cores chunksize : value) (warn_inplace : bool)
  : result NeuronProcessor :=
  match function with
  | FList fs =>
      if negb (bool_decide (length fs = length nl))
      then Err (ValueError "Number of functions must match neurons.")
      else match fs with
           | f :: _ => Ok (MkNeuronProcessor nl fs f parallel n_cores chunksize
                                             warn_inplace)
           | [] => Err (IndexError "list index out of range")
           end
  | FCallable f =>
      Ok (MkNeuronProcessor nl (replicate (length nl) f) f parallel n_cores
                            chunksize warn_inplace)
  | FOther _ => Err (TypeError "Expected `function` to be callable or list thereof")
  end.

(** What item [i] of [n] gets for an argument [a]: lines 302 to 305 and
    308 to 311.  [a[i]] is in range, since [len(a) = n] and the loop has
    [i < n]. *)
Definition parse_arg (n i : nat) (a : value) : value :=
  if negb (is_iterable a) || negb (bool_decide (length (elements a) = n))
  then a
  else default VNone (elements a !! i).

(** Modelled from the spec: [utils.unpack_neurons] is not part of this
    file; it flattens neurons and collections of neurons into one list. *)
Definition unpack_neurons (res : list value) : list value :=
  res ≫= λ r, match r with VNeuronList l => l | _ => [r] end.

Definition is_neuron (r : value) : bool :=
  match r with VNeuron _ | VNeuronList _ => true | _ => false end.

Definition is_None (r : value) : bool :=
  match r with VNone => true | _ => false end.

(** Lines 352 to 360. *)
Definition assemble (res : list value) : value :=
  if forallb is_neuron res then VNeuronList (unpack_neurons res)
  else if forallb is_None res then VNone
  else VList res.

(** The loop of lines 342 to 347: the calls in order, each on the logger
    the previous one left; the first exception ends the loop. *)
Fixpoint apply_each (f : pyfunc)
  (work : list (list value * gmap string value)) (lg : logger)
  : result (list value) * logger :=
  match work with
  | [] => (Ok [], lg)
  | (a, kw) :: work' =>
      match f a kw lg with
      | (Err e, lg') => (Err e, lg')
      | (Ok r, lg') =>
          match apply_each f work' lg' with
          | (Err e, lg'') => (Err e, lg'')
          | (Ok rs, lg'') => (Ok (r :: rs), lg'')
          end
      end
  end.

(** [_call] *)
Definition _call (x : pyfunc * list value * gmap string value) (lg : logger)
  : result value * logger :=
  let '(func, args, kwargs) := x in func args kwargs lg.

(** [list(pool.imap(_call, combinations))]: the workers are processes of
    their own, so what they do to their logger is not seen here; the
    results come in the order of the items, and so does the first
    exception. *)
Definition pool_imap (combinations : list (pyfunc * list value * gmap string value))
  (lg : logger) : result (list value) :=
  mapM (λ x, (_call x lg).1) combinations.

(** [parsed_args] and [parsed_kwargs] after the loop of lines 298 to 311,
    for [n] neurons. *)
Definition parsed_args (n : nat) (args : list value) : list (list value) :=
  (λ i, parse_arg n i <$> args) <$> seq 0 n.

Definition parsed_kwargs (n : nat) (kwargs : gmap string value)
  : list (gmap string value) :=
  (λ i, parse_arg n i <$> kwargs) <$> seq 0 n.

(** [kwargs] after the two [pop] of lines 289 and 290. *)
Definition popped (kwargs : gmap string value) : gmap string value :=
  delete "n_cores" (delete "parallel" kwargs).

(** [NeuronProcessor.__call__]; [pool] tells whether [ProcessingPool]
    could be imported. *)
Definition call_ (self : NeuronProcessor) (pool : bool) (args : list value)
  (kwargs : gmap string value) (lg : logger) : result value * logger :=
  let parallel := from_option value_truthy (np_parallel self)
                              (kwargs !! "parallel") in
  let kwargs := popped kwargs in
  let n := length (np_nl self) in
  let parsed_args := parsed_args n args in
  let parsed_kwargs := parsed_kwargs n kwargs in
  let level := getEffectiveLevel lg in
  let lg := setLevel WARNING lg in
  let '(res, lg) :=
    if parallel then
      if negb pool
      then (Err (ImportError "navis relies on pathos for multiprocessing!"), lg)
      else
        let lg := if np_warn_inplace self
                     && from_option value_truthy false (kwargs !! "inplace")
                  then warning "`inplace=True` does not work with multiprocessing " lg
                  else lg in
        (pool_imap (zip (zip (np_funcs self) parsed_args) parsed_kwargs) lg, lg)
    else apply_each (np_function self) (zip parsed_args parsed_kwargs) lg in
  match res with
  | Err e => (Err e, lg)
  | Ok res => (Ok (assemble res), setLevel level lg)
  end.

(** ** The libraries on small inputs

    What scipy and numpy answer on the inputs of the examples below: the
    nearest neighbours by exhaustive search, and the singular value
    decomposition of a diagonal matrix with non-negative entries.
    Neighbours at the same distance, and equal singular values, come in
    the order of a stable sort; the libraries may order such ties
    differently, which changes no coordinate of a neighbourhood and no
    singular value in the examples. *)

Definition dist2 (p q : vec3) : f64 :=
  let d := vsub p q in
  F64.sum [F64.mul (cx d) (cx d); F64.mul (cy d) (cy d); F64.mul (cz d) (cz d)].

(** Order on pairs of a float and an index, by the float. *)
Definition key_le (a b : f64 * nat) : Prop := F64.leb (a.1) (b.1) = true.
Definition key_ge (a b : f64 * nat) : Prop := F64.leb (b.1) (a.1) = true.

#[global] Instance key_le_dec a b : Decision (key_le a b).
Proof. unfold key_le. apply _. Defined.
#[global] Instance key_ge_dec a b : Decision (key_ge a b).
Proof. unfold key_ge. apply _. Defined.

(** The indices of [x] by distance to [p], nearest first. *)
Definition by_distance (x : list vec3) (p : vec3) : list nat :=
  (merge_sort key_le (imap (λ i q, (dist2 p q, i)) x)).*2.

(** [cKDTree(x).query(x, k)]: [k] neighbours of each point, a missing
    neighbour being reported as index [len(x)]; with [k = 1] the last axis
    is squeezed. *)
Definition knn_query (x : list vec3) (k : Z) : result index_array :=
  if negb (forallb (λ p, forallb F64.is_finite (coords p)) x)
  then Err (ValueError "data must be finite, check for nan or inf values")
  else if k <=? 0 then Err (ValueError "k must be an integer or a sequence of integers")
  else
    let rows := (λ p, take (Z.to_nat k)
                           (by_distance x p ++ replicate (Z.to_nat k) (length x)))
                <$> x in
    if k =? 1 then Ok (Ix1 (rows ≫= id)) else Ok (Ix2 rows).

Definition is_diagonal (m : mat3) : bool :=
  let '((a, b, c), (d, e, f), (g, h, i)) := m in
  forallb F64.is_zero [b; c; d; f; g; h]
  && forallb (λ v, F64.is_finite v && F64.leb F64.zero v) [a; e; i].

Definition unit_row (i : nat) : vec3 :=
  match i with
  | O => (F64.one, F64.zero, F64.zero)
  | S O => (F64.zero, F64.one, F64.zero)
  | _ => (F64.zero, F64.zero, F64.one)
  end.

Definition transpose3 (m : mat3) : mat3 :=
  let '((a, b, c), (d, e, f), (g, h, i)) := m in
  ((a, d, g), (b, e, h), (c, f, i)).

(** The decomposition of [diag(a, e, i)]: the entries in decreasing order,
    and the axes they belong to as the rows of [vh]. *)
Definition svd_diagonal (m : mat3) : result svd3 :=
  if is_diagonal m then
    let '((a, _, _), (_, e, _), (_, _, i)) := m in
    let order := merge_sort key_ge [(a, 0%nat); (e, 1%nat); (i, 2%nat)] in
    match order with
    | [(s0, i0); (s1, i1); (s2, i2)] =>
        let vh := (unit_row i0, unit_row i1, unit_row i2) in
        Ok (Svd3 (transpose3 vh) (s0, s1, s2) vh)
    | _ => Err (LibError "LinAlgError" "SVD did not converge")
    end
  else Err (LibError "NotImplementedError" "not a diagonal matrix").

Definition small_inputs : handler :=
  λ A c,
    match c with
    | CKDTreeQuery x k => knn_query x k
    | LinalgSvd ms => mapM svd_diagonal ms
    | Resample n _ => Ok n
    | RemoveClose v _ => Ok v
    | Neuron2tangents _ => Err (LibError "NotImplementedError" "neuron2tangents")
    | PintQuantity _ => Err (LibError "NotImplementedError" "pint.Quantity")
    | PintTo _ _ => Err (LibError "NotImplementedError" "pint to")
    | RoundSmart m => Ok m
    end.

Definition pt (a b c : Z) : vec3 := (F64.of_Z a, F64.of_Z b, F64.of_Z c).

Definition twins : ndarray := of_rows3 [pt 1 1 1; pt 1 1 1].
Definition twins_and_one : ndarray := of_rows3 [pt 0 0 0; pt 0 0 0; pt 2 0 0].

(** * Properties *)

(** ** Running programs *)

Section Run.
Context (h : handler).

Lemma run_bind {A B} (p : prog A) (f : A -> prog B) :
  run h (p ≫= f) = run h p ≫= λ a, run h (f a).
Proof.
  induction p as [a|e|X c k IH]; simpl; try done.
  change (Call c k ≫= f) with (Call c (λ a, k a ≫= f)). simpl.
  destruct (h X c); simpl; [apply IH|done].
Qed.

Lemma run_fmap {A B} (g : A -> B) (p : prog A) :
  run h (g <$> p) = run h p ≫= λ a, Ok (g a).
Proof. apply (run_bind p (λ a, Ret (g a))). Qed.

Lemma run_lift {A} (r : result A) : run h (lift r) = r.
Proof. by destruct r. Qed.

Lemma run_perform {A} (c : call A) : run h (perform c) = h A c.
Proof. simpl. by destruct (h A c). Qed.

Lemma run_perform_bind {A B} (c : call A) (f : A -> prog B) :
  run h (perform c ≫= f) = h A c ≫= λ a, run h (f a).
Proof. by rewrite run_bind, run_perform. Qed.

Lemma run_lift_bind {A B} (r : result A) (f : A -> prog B) :
  run h (lift r ≫= f) = r ≫= λ a, run h (f a).
Proof. by rewrite run_bind, run_lift. Qed.

Lemma queries_bind {A B} (p : prog A) (f : A -> prog B) :
  queries h (p ≫= f)
  = queries h p ++ match run h p with Ok a => queries h (f a) | Err _ => [] end.
Proof.
  induction p as [a|e|X c k IH]; simpl; try done.
  change (Call c k ≫= f) with (Call c (λ a, k a ≫= f)). simpl.
  rewrite <- app_assoc. f_equal.
  destruct (h X c); simpl; [apply IH|done].
Qed.

Lemma queries_fmap {A B} (g : A -> B) (p : prog A) :
  queries h (g <$> p) = queries h p.
Proof.
  unfold fmap, prog_fmap. change (bind p ?f) with (p ≫= f).
  rewrite queries_bind. destruct (run h p); simpl; by rewrite app_nil_r.
Qed.

Lemma queries_lift {A} (r : result A) : queries h (lift r) = [].
Proof. by destruct r. Qed.

Lemma queries_lift_bind {A B} (r : result A) (f : A -> prog B) :
  queries h (lift r ≫= f)
  = match r with Ok a => queries h (f a) | Err _ => [] end.
Proof. by destruct r. Qed.

Lemma queries_perform_bind {A B} (c : call A) (f : A -> prog B) :
  queries h (perform c ≫= f)
  = match c with CKDTreeQuery x n => [(x, n)] | _ => [] end
    ++ match h A c with Ok a => queries h (f a) | Err _ => [] end.
Proof. done. Qed.

End Run.

Lemma result_bind_ok_l {A B} (a : A) (f : A -> result B) : Ok a ≫= f = f a.
Proof. done. Qed.

Lemma result_bind_Ok {A B} (r : result A) (f : A -> result B) b :
  r ≫= f = Ok b <-> ∃ a, r = Ok a ∧ f a = Ok b.
Proof.
  destruct r as [a|e]; simpl; split.
  - eauto.
  - by intros (? & [= <-] & ?).
  - done.
  - by intros (? & ? & ?).
Qed.

(** ** The k-nearest-neighbour path *)

(** The point set that reaches the query, and the neighbour count used. *)
Definition cleaned (a : ndarray) : list vec3 := dropna (rows3 (data a)).
Definition k_eff (a : ndarray) (k : Z) : Z :=
  Z.min (Z.of_nat (length (cleaned a))) k.

(** The [Dotprops] of line 164. *)
Definition knn_result (pr : properties) (x : list vec3) (k : Z)
  (usv : list svd3) : Dotprops :=
  MkDotprops x ((λ r, vect_of (svd_vh r)) <$> usv) None
             (Some ((λ r, alpha_of (svd_s r)) <$> usv)) (Some k)
             (pr_units pr) (pr_name pr) (pr_id pr).

Definition shape_N3 (a : ndarray) : Prop :=
  ndim a = 2%nat ∧ shape a !! 1%nat = Some 3%nat.

#[global] Instance shape_N3_dec a : Decision (shape_N3 a).
Proof. unfold shape_N3. apply _. Defined.

Lemma knn_dotprops_valid pr a k :
  shape_N3 a -> 0 < k ->
  knn_dotprops pr a (Some k)
  = (ix ← perform (CKDTreeQuery (cleaned a) (k_eff a k));
     ms ← lift (inertia_stack (cleaned a) ix);
     usv ← perform (LinalgSvd ms);
     mret (knn_result pr (cleaned a) (k_eff a k) usv)).
Proof.
  intros [Hd Hs] Hk. unfold knn_dotprops.
  rewrite !bool_decide_eq_true_2 by done. simpl.
  destruct (Z.leb_spec k 0); [lia|done].
Qed.

Lemma knn_dotprops_invalid pr a k :
  ¬ shape_N3 a ∨ k_unset k = true ->
  ∃ msg, knn_dotprops pr a k = Raise (ValueError msg).
Proof.
  unfold knn_dotprops, shape_N3, k_unset. intros H.
  destruct (decide (ndim a = 2%nat)) as [Hd|Hd];
    [rewrite (bool_decide_eq_true_2 _ Hd)|rewrite (bool_decide_eq_false_2 _ Hd)];
    simpl; [|eauto].
  destruct (decide (shape a !! 1%nat = Some 3%nat)) as [Hs|Hs];
    [rewrite (bool_decide_eq_true_2 _ Hs)|rewrite (bool_decide_eq_false_2 _ Hs)];
    simpl; [|eauto].
  destruct H as [H|H]; [by destruct H|].
  destruct k as [k|]; [rewrite H|]; eauto.
Qed.

Lemma k_unset_false k : k_unset k = false <-> ∃ k0, k = Some k0 ∧ 0 < k0.
Proof.
  destruct k as [k|]; simpl; split.
  - intros H%Z.leb_gt. eauto.
  - intros (? & [= <-] & ?). by apply Z.leb_gt.
  - done.
  - by intros (? & ? & ?).
Qed.

Section Knn.
Context (h : handler) (pr : properties) (a : ndarray).

Lemma knn_dotprops_run k ix ms usv :
  shape_N3 a -> 0 < k ->
  h _ (CKDTreeQuery (cleaned a) (k_eff a k)) = Ok ix ->
  inertia_stack (cleaned a) ix = Ok ms ->
  h _ (LinalgSvd ms) = Ok usv ->
  run h (knn_dotprops pr a (Some k))
  = Ok (knn_result pr (cleaned a) (k_eff a k) usv).
Proof.
  intros Ha Hk Hq Hm Hs. rewrite knn_dotprops_valid by done.
  rewrite run_perform_bind, Hq, result_bind_ok_l.
  rewrite run_lift_bind, Hm, result_bind_ok_l.
  by rewrite run_perform_bind, Hs, result_bind_ok_l.
Qed.

Lemma knn_dotprops_inv k dp :
  run h (knn_dotprops pr a k) = Ok dp ->
  ∃ k0 ix ms usv,
    k = Some k0 ∧ 0 < k0 ∧ shape_N3 a
    ∧ h _ (CKDTreeQuery (cleaned a) (k_eff a k0)) = Ok ix
    ∧ inertia_stack (cleaned a) ix = Ok ms
    ∧ h _ (LinalgSvd ms) = Ok usv
    ∧ dp = knn_result pr (cleaned a) (k_eff a k0) usv.
Proof.
  intros Hrun.
  destruct (decide (shape_N3 a)) as [Ha|Ha]; cycle 1.
  { destruct (knn_dotprops_invalid pr a k) as [msg E]; [by left|].
    by rewrite E in Hrun. }
  destruct (k_unset k) eqn:Hk.
  { destruct (knn_dotprops_invalid pr a k) as [msg E]; [by right|].
    by rewrite E in Hrun. }
  apply k_unset_false in Hk as (k0 & -> & Hk).
  rewrite knn_dotprops_valid in Hrun by done.
  rewrite run_perform_bind in Hrun.
  apply result_bind_Ok in Hrun as (ix & Hq & Hrun).
  rewrite run_lift_bind in Hrun.
  apply result_bind_Ok in Hrun as (ms & Hm & Hrun).
  rewrite run_perform_bind in Hrun.
  apply result_bind_Ok in Hrun as (usv & Hs & Hrun).
  simpl in Hrun. injection Hrun as <-.
  by exists k0, ix, ms, usv.
Qed.

Lemma knn_dotprops_queries k :
  queries h (knn_dotprops pr a k)
  = match k with
    | Some k0 =>
        if decide (shape_N3 a ∧ 0 < k0) then [(cleaned a, k_eff a k0)] else []
    | None => []
    end.
Proof.
  destruct k as [k0|]; cycle 1.
  { destruct (knn_dotprops_invalid pr a None) as [msg ->]; [by right|done]. }
  destruct (decide _) as [[Ha Hk]|Hn].
  - rewrite knn_dotprops_valid by done.
    rewrite queries_perform_bind.
    destruct (h _ (CKDTreeQuery _ _)) as [ix|e]; [|done].
    rewrite queries_lift_bind.
    destruct (inertia_stack _ _) as [ms|e]; [|done].
    rewrite queries_perform_bind.
    by destruct (h _ (LinalgSvd _)).
  - destruct (knn_dotprops_invalid pr a (Some k0)) as [msg ->]; [|done].
    destruct (decide (shape_N3 a)); [right|by left].
    simpl. apply Z.leb_le. destruct (Z.le_gt_cases k0 0); [done|].
    exfalso. apply Hn. split; [done|lia].
Qed.

End Knn.

(** ** The dispatch of [make_dotprops] *)

(** The loop of lines 94 to 97. *)
Fixpoint foreach {A B} (f : A -> prog B) (l : list A) : prog (list B) :=
  match l with
  | [] => mret []
  | n :: l' => r ← f n; rs ← foreach f l'; mret (r :: rs)
  end.

(** [x.resample(...)] when [resample] is truthy, and [tm.points.remove_close]
    likewise. *)
Definition resampled (n : TreeNeuron) (r : resample_arg) : prog TreeNeuron :=
  if truthy r then perform (Resample n r) else mret n.

Definition thinned (n : MeshNeuron) (r : resample_arg) : prog ndarray :=
  if truthy r then perform (RemoveClose (mn_vertices n) r)
  else mret (mn_vertices n).

Definition tree_properties (x : TreeNeuron) : properties :=
  MkProperties (Some (tn_units x)) (Some (tn_name x)) (Some (tn_id x)).

Definition mesh_properties (n : MeshNeuron) : properties :=
  MkProperties (Some (mn_units n)) (Some (mn_name n)) (Some (mn_id n)).

Definition tangents_result (x : TreeNeuron)
  (t : list vec3 * list vec3 * list f64) : Dotprops :=
  let '(points, vect, length) := t in
  MkDotprops points vect (Some length) None None
             (Some (tn_units x)) (Some (tn_name x)) (Some (tn_id x)).

Lemma make_dotprops_list l k r :
  make_dotprops (SNeuronList l) k r
  = (_ ← lift (eval_param_resample r);
     res ← foreach (λ n, make_dotprops n k r) l;
     mret (ManyDotprops res)).
Proof.
  simpl. destruct (eval_param_resample r) as [[]|e]; simpl; [|done].
  f_equal. induction l as [|n l IH]; [done|]. simpl. by rewrite IH.
Qed.

Lemma make_dotprops_dataframe df k r :
  make_dotprops (SDataFrame df) k r
  = (_ ← lift (eval_param_resample r);
     if forallb (has_column df) ["x"; "y"; "z"]
     then OneDotprops <$> knn_dotprops no_properties (df_xyz df) k
     else Raise (ValueError "DataFrame must contain x, y and z columns.")).
Proof. done. Qed.

Lemma make_dotprops_tree n k r :
  make_dotprops (STreeNeuron n) k r
  = (_ ← lift (eval_param_resample r);
     x ← resampled n r;
     if k_unset k
     then '(points, vect, length) ← perform (Neuron2tangents x);
          mret (OneDotprops (MkDotprops points vect (Some length) None None
                               (Some (tn_units x)) (Some (tn_name x))
                               (Some (tn_id x))))
     else OneDotprops
            <$> knn_dotprops (tree_properties x) (of_rows3 (tn_nodes x)) k).
Proof. done. Qed.

Lemma make_dotprops_mesh n k r :
  make_dotprops (SMeshNeuron n) k r
  = (_ ← lift (eval_param_resample r);
     x ← thinned n r;
     OneDotprops <$> knn_dotprops (mesh_properties n) x k).
Proof. done. Qed.

Lemma make_dotprops_array a k r :
  make_dotprops (SArray a) k r
  = (_ ← lift (eval_param_resample r);
     OneDotprops <$> knn_dotprops no_properties a k).
Proof. done. Qed.

Lemma source_induction (P : source -> Prop) :
  (∀ l, Forall P l -> P (SNeuronList l)) ->
  (∀ df, P (SDataFrame df)) ->
  (∀ n, P (STreeNeuron n)) ->
  (∀ n, P (SMeshNeuron n)) ->
  (∀ a, P (SArray a)) ->
  (∀ t, P (SOther t)) ->
  ∀ s, P s.
Proof.
  intros Hl Hdf Ht Hm Ha Ho.
  fix IH 1. intros [l|df|n|n|a|t];
    [|apply Hdf|apply Ht|apply Hm|apply Ha|apply Ho].
  apply Hl. induction l as [|s l IHl]; constructor; [apply IH|apply IHl].
Qed.

Lemma dropna_no_nan x : Forall (λ p, row_has_nan p = false) (dropna x).
Proof.
  apply Forall_forall. intros p Hp. unfold dropna in Hp.
  by apply (list_elem_of_filter _ _ p) in Hp as [? _].
Qed.

Lemma elem_of_dropna x p :
  p ∈ dropna x <-> row_has_nan p = false ∧ p ∈ x.
Proof.
  unfold dropna. apply (list_elem_of_filter (λ p, row_has_nan p = false)).
Qed.

Section Queries.
Context (h : handler).

Lemma queries_foreach {A B} (f : A -> prog B) (l : list A) q :
  q ∈ queries h (foreach f l) -> ∃ n, n ∈ l ∧ q ∈ queries h (f n).
Proof.
  induction l as [|n l IH]; simpl; [by intros ?%elem_of_nil|].
  rewrite queries_bind. intros [Hq|Hq]%elem_of_app.
  - exists n. split; [left|done].
  - destruct (run h (f n)) as [b|e]; [|by apply elem_of_nil in Hq].
    rewrite queries_bind in Hq. apply elem_of_app in Hq as [Hq|Hq].
    + destruct (IH Hq) as (m & ? & ?). exists m. split; [by right|done].
    + destruct (run h (foreach f l)); by apply elem_of_nil in Hq.
Qed.

Lemma queries_resampled n r : queries h (resampled n r) = [].
Proof.
  unfold resampled. destruct (truthy r); simpl; [|done].
  by destruct (h _ (Resample n r)).
Qed.

Lemma queries_thinned n r : queries h (thinned n r) = [].
Proof.
  unfold thinned. destruct (truthy r); simpl; [|done].
  by destruct (h _ (RemoveClose (mn_vertices n) r)).
Qed.

(** Every query that [make_dotprops] makes is on a point set without NaN
    rows, with the smaller of the requested [k] and the number of points. *)
Lemma make_dotprops_queries src k r x' k' :
  (x', k') ∈ queries h (make_dotprops src k r) ->
  ∃ k0, k = Some k0 ∧ 0 < k0
        ∧ k' = Z.min (Z.of_nat (length x')) k0
        ∧ Forall (λ p, row_has_nan p = false) x'.
Proof.
  assert (Hknn : ∀ pr a, (x', k') ∈ queries h (knn_dotprops pr a k) ->
    ∃ k0, k = Some k0 ∧ 0 < k0 ∧ k' = Z.min (Z.of_nat (length x')) k0
          ∧ Forall (λ p, row_has_nan p = false) x').
  { intros pr a. rewrite knn_dotprops_queries.
    destruct k as [k0|]; [|by intros ?%elem_of_nil].
    destruct (decide _) as [[_ Hk]|_]; [|by intros ?%elem_of_nil].
    intros [= -> ->]%list_elem_of_singleton.
    exists k0. repeat split; try done. apply dropna_no_nan. }
  induction src as [l IH|df|n|n|a|t] using source_induction.
  - rewrite make_dotprops_list, queries_lift_bind.
    destruct (eval_param_resample r); [|by intros ?%elem_of_nil].
    rewrite queries_bind. intros [Hq|Hq]%elem_of_app.
    + apply queries_foreach in Hq as (n & Hn & Hq).
      rewrite Forall_forall in IH. by apply (IH n).
    + destruct (run h (foreach _ l)); by apply elem_of_nil in Hq.
  - rewrite make_dotprops_dataframe, queries_lift_bind.
    destruct (eval_param_resample r); [|by intros ?%elem_of_nil].
    destruct (forallb _ _); [|by intros ?%elem_of_nil].
    rewrite queries_fmap. apply Hknn.
  - rewrite make_dotprops_tree, queries_lift_bind.
    destruct (eval_param_resample r); [|by intros ?%elem_of_nil].
    rewrite queries_bind, queries_resampled, app_nil_l.
    destruct (run h (resampled n r)) as [x|e]; [|by intros ?%elem_of_nil].
    destruct (k_unset k).
    + rewrite queries_perform_bind, app_nil_l.
      destruct (h _ (Neuron2tangents x)) as [[[? ?] ?]|];
        by intros ?%elem_of_nil.
    + rewrite queries_fmap. apply Hknn.
  - rewrite make_dotprops_mesh, queries_lift_bind.
    destruct (eval_param_resample r); [|by intros ?%elem_of_nil].
    rewrite queries_bind, queries_thinned, app_nil_l.
    destruct (run h (thinned n r)) as [x|e]; [|by intros ?%elem_of_nil].
    rewrite queries_fmap. apply Hknn.
  - rewrite make_dotprops_array, queries_lift_bind.
    destruct (eval_param_resample r); [|by intros ?%elem_of_nil].
    rewrite queries_fmap. apply Hknn.
  - simpl. destruct (eval_param_resample r); by intros ?%elem_of_nil.
Qed.

End Queries.

(** The coordinate array that reaches the shape check of line 125, for
    an input that is a table, a neuron or an array, when the libraries
    behave as [h]: the three columns of the table, the nodes of the
    (resampled) tree neuron, the (thinned) vertices of the mesh, or the
    array itself. *)
Definition coordinates (h : handler) (src : source) (r : resample_arg)
  : result ndarray :=
  _ ← eval_param_resample r;
  match src with
  | SDataFrame df =>
      if forallb (has_column df) ["x"; "y"; "z"] then Ok (df_xyz df)
      else Err (ValueError "DataFrame must contain x, y and z columns.")
  | STreeNeuron n => x ← run h (resampled n r); Ok (of_rows3 (tn_nodes x))
  | SMeshNeuron n => run h (thinned n r)
  | SArray a => Ok a
  | SNeuronList _ => Err (TypeError "one array for each member")
  | SOther _ => Err (TypeError "Unable to generate dotprops from data of this type")
  end.

(** A row none of whose coordinates is NaN. *)
Definition nan_free (p : vec3) : Prop :=
  Forall (λ c, F64.is_nan c = false) (coords p).

#[global] Instance nan_free_dec p : Decision (nan_free p).
Proof. unfold nan_free. apply _. Defined.

Lemma row_has_nan_false p : row_has_nan p = false <-> nan_free p.
Proof.
  unfold row_has_nan, nan_free.
  rewrite <- not_true_iff_false, existsb_exists, Forall_forall. split.
  - intros Hn c Hc. apply not_true_iff_false. intros Hnan. apply Hn.
    exists c. split; [by apply list_elem_of_In|done].
  - intros Hall (c & Hc%list_elem_of_In & Hnan). by rewrite (Hall c Hc) in Hnan.
Qed.

Lemma cleaned_nan_free a : cleaned a = filter nan_free (rows3 (data a)).
Proof.
  unfold cleaned, dropna. apply list_filter_iff. intros p.
  apply row_has_nan_false.
Qed.

(** C5: for a table, a neuron or an array whose coordinate array [a] has
    [N >= 1] rows without NaN, and a requested [k > N], [make_dotprops]
    makes one nearest-neighbour query: on those [N] rows, in their order,
    for exactly [N] neighbours.  And whatever the input (a list of neurons
    as well) and the behaviour of the libraries, every query it makes is
    on rows without NaN and never asks for more neighbours than there are
    rows. *)
Theorem query_uses_effective_k (h : handler) (src : source) (k : Z)
  (r : resample_arg) (a : ndarray) :
  coordinates h src r = Ok a ->
  shape_N3 a ->
  1 <= Z.of_nat (length (filter nan_free (rows3 (data a)))) ->
  Z.of_nat (length (filter nan_free (rows3 (data a)))) < k ->
  queries h (make_dotprops src (Some k) r)
  = [(filter nan_free (rows3 (data a)),
      Z.of_nat (length (filter nan_free (rows3 (data a)))))]
  ∧ ∀ src' r' x' k',
      (x', k') ∈ queries h (make_dotprops src' (Some k) r') ->
      Forall nan_free x'
      ∧ k' = Z.min (Z.of_nat (length x')) k
      ∧ k' <= Z.of_nat (length x').
Proof.
  intros Hc Ha HN Hk. split; cycle 1.
  { intros src' r' x' k' (k0 & [= <-] & _ & -> & Hx)%make_dotprops_queries.
    split; [|lia]. eapply Forall_impl; [exact Hx|].
    intros p. apply row_has_nan_false. }
  rewrite <- cleaned_nan_free in *.
  assert (Hknn : ∀ pr, queries h (OneDotprops <$> knn_dotprops pr a (Some k))
                       = [(cleaned a, Z.of_nat (length (cleaned a)))]).
  { intros pr. rewrite queries_fmap, knn_dotprops_queries.
    rewrite decide_True by (split; [done|lia]).
    unfold k_eff. do 2 f_equal. lia. }
  unfold coordinates in Hc.
  apply result_bind_Ok in Hc as ([] & Hr & Hc).
  destruct src as [l|df|n|n|a0|t]; try done.
  - rewrite make_dotprops_dataframe, queries_lift_bind, Hr.
    destruct (forallb _ _); [|done]. injection Hc as <-. apply Hknn.
  - apply result_bind_Ok in Hc as (x & Hx & [= <-]).
    rewrite make_dotprops_tree, queries_lift_bind, Hr.
    rewrite queries_bind, queries_resampled, app_nil_l, Hx.
    replace (k_unset (Some k)) with false
      by (symmetry; apply k_unset_false; exists k; split; [done|lia]).
    apply Hknn.
  - rewrite make_dotprops_mesh, queries_lift_bind, Hr.
    rewrite queries_bind, queries_thinned, app_nil_l, Hc. apply Hknn.
  - injection Hc as <-.
    rewrite make_dotprops_array, queries_lift_bind, Hr. apply Hknn.
Qed.

Lemma query_uses_effective_k_witness :
  queries small_inputs (make_dotprops (SArray twins_and_one) (Some 7) RNone)
  = [(filter nan_free (rows3 (data twins_and_one)), 3)].
Proof.
  apply (query_uses_effective_k small_inputs (SArray twins_and_one) 7 RNone
           twins_and_one); [reflexivity|done|vm_compute; discriminate|reflexivity].
Defined.

(** ** What a returned [Dotprops] is made of *)

(** [dp] was built by the k-nearest-neighbour path from the coordinate
    array [a]: the libraries answered the query on the cleaned points with
    [ix], and the decomposition of the inertia matrices with [usv]. *)
Record knn_built (h : handler) (k : option Z) (dp : Dotprops) := KnnBuilt {
  kb_pr : properties;
  kb_a : ndarray;
  kb_k : Z;
  kb_ix : index_array;
  kb_ms : list mat3;
  kb_usv : list svd3;
  kb_requested : k = Some kb_k;
  kb_positive : 0 < kb_k;
  kb_shape : shape_N3 kb_a;
  kb_query : h _ (CKDTreeQuery (cleaned kb_a) (k_eff kb_a kb_k)) = Ok kb_ix;
  kb_inertia : inertia_stack (cleaned kb_a) kb_ix = Ok kb_ms;
  kb_svd : h _ (LinalgSvd kb_ms) = Ok kb_usv;
  kb_dp : dp = knn_result kb_pr (cleaned kb_a) (k_eff kb_a kb_k) kb_usv
}.

Definition unstructured (src : source) : Prop :=
  match src with
  | SDataFrame _ | SMeshNeuron _ | SArray _ => True
  | _ => False
  end.

Section Built.
Context (h : handler).

Lemma knn_dotprops_built pr a k dp :
  run h (knn_dotprops pr a k) = Ok dp -> inhabited (knn_built h k dp).
Proof.
  intros (k0 & ix & ms & usv & ? & ? & ? & ? & ? & ? & ?)%knn_dotprops_inv.
  constructor. by eapply (KnnBuilt h k dp pr a k0 ix ms usv).
Qed.

Lemma fmap_knn_dotprops_built pr a k res :
  run h (OneDotprops <$> knn_dotprops pr a k) = Ok res ->
  ∃ dp, res = OneDotprops dp ∧ inhabited (knn_built h k dp).
Proof.
  rewrite run_fmap. intros (dp & Hdp & [= <-])%result_bind_Ok.
  exists dp. split; [done|]. by eapply knn_dotprops_built.
Qed.

(** A table, an array or a mesh only ever gives a [Dotprops] of the
    k-nearest-neighbour path. *)
Lemma make_dotprops_unstructured src k r res :
  unstructured src ->
  run h (make_dotprops src k r) = Ok res ->
  ∃ dp, res = OneDotprops dp ∧ inhabited (knn_built h k dp).
Proof.
  destruct src as [l|df|n|n|a|t]; try done; intros _.
  - rewrite make_dotprops_dataframe, run_lift_bind.
    intros (_ & _ & Hrun)%result_bind_Ok.
    destruct (forallb _ _); [|done].
    by eapply fmap_knn_dotprops_built.
  - rewrite make_dotprops_mesh, run_lift_bind.
    intros (_ & _ & Hrun)%result_bind_Ok.
    rewrite run_bind in Hrun. apply result_bind_Ok in Hrun as (x & _ & Hrun).
    by eapply fmap_knn_dotprops_built.
  - rewrite make_dotprops_array, run_lift_bind.
    intros (_ & _ & Hrun)%result_bind_Ok.
    by eapply fmap_knn_dotprops_built.
Qed.

End Built.

(** C10: for a table, an array or a mesh, the [k] recorded on the returned
    [Dotprops] is the smaller of the requested [k] and the number [N] of
    its (cleaned) points, hence [N] when the requested [k] exceeds [N]. *)
Theorem recorded_k_is_effective (h : handler) (src : source) (k : Z)
  (r : resample_arg) (res : dotprops_result) :
  unstructured src ->
  run h (make_dotprops src (Some k) r) = Ok res ->
  ∃ dp, res = OneDotprops dp
        ∧ Forall (λ p, row_has_nan p = false) (dp_points dp)
        ∧ dp_k dp = Some (Z.min (Z.of_nat (length (dp_points dp))) k)
        ∧ (Z.of_nat (length (dp_points dp)) < k ->
           dp_k dp = Some (Z.of_nat (length (dp_points dp)))).
Proof.
  intros Hsrc (dp & -> & [B])%make_dotprops_unstructured; [|done].
  exists dp. split; [done|]. destruct B as [pr a k0 ix ms usv [= <-] ? ? ? ? ? ->].
  simpl. split; [apply dropna_no_nan|]. unfold k_eff.
  split; [done|]. intros ?. f_equal. lia.
Qed.

Lemma recorded_k_is_effective_witness :
  ∃ dp, run small_inputs (make_dotprops (SArray twins_and_one) (Some 7) RNone)
        = Ok (OneDotprops dp)
        ∧ length (dp_points dp) = 3%nat
        ∧ dp_k dp = Some 3.
Proof.
  edestruct (recorded_k_is_effective small_inputs (SArray twins_and_one) 7 RNone)
    as (dp & Hdp & _ & _ & Hk); [exact I|vm_compute; reflexivity|].
  exists dp. injection Hdp as <-. split; [by vm_compute|].
  split; [done|]. apply Hk. simpl. lia.
Defined.

(** ** Row cleaning *)

Definition with_inf : ndarray :=
  of_rows3 [(F64.inf, F64.zero, F64.zero); pt 0 0 0; pt 1 0 0].

(** C3, as the code has it: the rows with a NaN coordinate, and only
    those, are dropped before the nearest-neighbour query and the
    decomposition, and the points of the returned [Dotprops] are the rows
    that are left; a row with an infinite coordinate is kept. *)
Theorem nan_rows_dropped (h : handler) (pr : properties) (a : ndarray)
  (k : option Z) :
  (∀ x' k', (x', k') ∈ queries h (knn_dotprops pr a k) -> x' = cleaned a)
  ∧ (∀ dp, run h (knn_dotprops pr a k) = Ok dp -> dp_points dp = cleaned a)
  ∧ (∀ p, p ∈ cleaned a
          <-> p ∈ rows3 (data a) ∧ Forall (λ c, F64.is_nan c = false) (coords p)).
Proof.
  split_and!.
  - intros x' k'. rewrite knn_dotprops_queries.
    destruct k as [k0|]; [|by intros ?%elem_of_nil].
    destruct (decide _); [|by intros ?%elem_of_nil].
    by intros [= -> ->]%list_elem_of_singleton.
  - intros dp (k0 & ix & ms & usv & _ & _ & _ & _ & _ & _ & ->)%knn_dotprops_inv.
    done.
  - intros p. unfold cleaned. rewrite elem_of_dropna.
    unfold row_has_nan. rewrite <- not_true_iff_false, existsb_exists, Forall_forall.
    split; intros [H1 H2]; split; try done.
    + intros c Hc. apply not_true_iff_false. intros Hn. apply H1.
      exists c. split; [by apply list_elem_of_In|done].
    + intros (c & Hc%list_elem_of_In & Hn). by rewrite (H2 c Hc) in Hn.
Qed.


(** A row with an infinite coordinate is not dropped: it is part of the
    point set that the nearest-neighbour query is made on. *)
Lemma infinite_row_not_dropped :
  queries small_inputs (make_dotprops (SArray with_inf) (Some 2) RNone)
  = [(rows3 (data with_inf), 2)]
  ∧ rows3 (data with_inf) !! 0%nat = Some (F64.inf, F64.zero, F64.zero)
  ∧ F64.is_finite F64.inf = false.
Proof. by vm_compute. Qed.

(** ** The guard on [k] *)

Definition is_validation_error (e : exn) : bool :=
  match e with ValueError _ | TypeError _ => true | _ => false end.

(** C7: a table, an array or a mesh with [k] unset or not positive gives
    no [Dotprops]: the call fails, with a validation error unless
    [remove_close], called before [k] is looked at, has raised. *)
Theorem unstructured_needs_k (h : handler) (src : source) (k : option Z)
  (r : resample_arg) :
  unstructured src -> k_unset k = true ->
  ∃ e, run h (make_dotprops src k r) = Err e
       ∧ (is_validation_error e = true
          ∨ ∃ n, src = SMeshNeuron n ∧ truthy r = true
                 ∧ h _ (RemoveClose (mn_vertices n) r) = Err e).
Proof.
  intros Hsrc Hk.
  assert (Hknn : ∀ pr a, ∃ e,
    run h (OneDotprops <$> knn_dotprops pr a k) = Err e
    ∧ is_validation_error e = true).
  { intros pr a. destruct (knn_dotprops_invalid pr a k) as [msg E]; [by right|].
    rewrite run_fmap, E. by eexists. }
  destruct src as [l|df|n|n|a|t]; try done.
  - rewrite make_dotprops_dataframe, run_lift_bind.
    destruct r; simpl; eauto;
      (destruct (has_column df "x" && _); [|by eauto]);
      destruct (Hknn no_properties (df_xyz df)) as (e & ? & ?); eauto.
  - rewrite make_dotprops_mesh, run_lift_bind.
    destruct (eval_param_resample r) as [[]|e] eqn:Hr; cycle 1.
    { destruct r; simplify_eq/=. eauto. }
    rewrite result_bind_ok_l, run_bind. unfold thinned.
    destruct (truthy r) eqn:Ht.
    + rewrite run_perform.
      destruct (h _ (RemoveClose (mn_vertices n) r)) as [x|e] eqn:Hx.
      * rewrite result_bind_ok_l.
        destruct (Hknn (mesh_properties n) x) as (e & ? & ?); eauto.
      * exists e. split; [done|]. right. by exists n.
    + simpl. destruct (Hknn (mesh_properties n) (mn_vertices n)) as (e & ? & ?); eauto.
  - rewrite make_dotprops_array, run_lift_bind.
    destruct r; simpl; eauto;
      destruct (Hknn no_properties a) as (e & ? & ?); eauto.
Qed.

Lemma unstructured_needs_k_witness :
  ∃ e, run small_inputs (make_dotprops (SArray twins) (Some 0) RNone) = Err e
       ∧ is_validation_error e = true.
Proof.
  destruct (unstructured_needs_k small_inputs (SArray twins) (Some 0) RNone I eq_refl)
    as (e & He & [Hv|(n & Hn & _)]); [|done].
  by exists e.
Defined.

(** ** The branch of tree neurons without [k] *)

Lemma invokes_bind {A B} P (p : prog A) (f : A -> prog B) :
  invokes P (p ≫= f) -> invokes P p ∨ ∃ a, invokes P (f a).
Proof.
  induction p as [a|e|X c k IH]; simpl; [eauto|done|].
  change (invokes P (Call c (λ a, k a ≫= f)) ->
          (P X c ∨ ∃ a, invokes P (k a)) ∨ ∃ a, invokes P (f a)).
  simpl. intros [?|[a Ha]]; [by left; left|].
  destruct (IH a Ha) as [?|?]; [left; right; eauto|by right].
Qed.

(** C6: for a tree neuron with [k] unset or not positive, no answer of
    the libraries leads to a nearest-neighbour query or a decomposition;
    the points, vectors and lengths are those of [neuron2tangents] on the
    (resampled) neuron, and the [Dotprops] has neither [alpha] nor [k]. *)
Theorem tree_without_k_is_terminal (h : handler) (n : TreeNeuron)
  (k : option Z) (r : resample_arg) :
  k_unset k = true ->
  ¬ invokes is_knn_svd (make_dotprops (STreeNeuron n) k r)
  ∧ run h (make_dotprops (STreeNeuron n) k r)
    = (_ ← eval_param_resample r;
       x ← run h (resampled n r);
       t ← h _ (Neuron2tangents x);
       Ok (OneDotprops (tangents_result x t)))
  ∧ (∀ res, run h (make_dotprops (STreeNeuron n) k r) = Ok res ->
     ∃ dp, res = OneDotprops dp ∧ dp_alpha dp = None ∧ dp_k dp = None).
Proof.
  intros Hk.
  assert (Hrun : run h (make_dotprops (STreeNeuron n) k r)
    = (_ ← eval_param_resample r;
       x ← run h (resampled n r);
       t ← h _ (Neuron2tangents x);
       Ok (OneDotprops (tangents_result x t)))).
  { rewrite make_dotprops_tree, Hk, run_lift_bind.
    destruct (eval_param_resample r) as [[]|e]; [|done].
    rewrite !result_bind_ok_l, run_bind.
    destruct (run h (resampled n r)) as [x|e]; [|done].
    rewrite !result_bind_ok_l, run_perform_bind.
    by destruct (h _ (Neuron2tangents x)) as [[[pts v] l]|e]. }
  split_and!; [|done|].
  - rewrite make_dotprops_tree, Hk.
    intros [H|[[] H]]%invokes_bind; [by destruct (eval_param_resample r)|].
    apply invokes_bind in H as [H|[x H]].
    + unfold resampled in H. destruct (truthy r); simpl in H; [|done].
      by destruct H as [?|[? ?]].
    + simpl in H. destruct H as [[]|[[[pts v] l] []]].
  - intros res. rewrite Hrun.
    intros (_ & _ & (x & _ & (t & _ & [= <-])%result_bind_Ok)%result_bind_Ok)
      %result_bind_Ok.
    exists (tangents_result x t). by destruct t as [[pts v] l].
Qed.

Definition three_nodes : TreeNeuron :=
  MkTreeNeuron (Pint false (F64.of_Z 8) "nanometer" false) "neuron" 1
               [pt 0 0 0; pt 1 0 0; pt 2 0 0].

Lemma tree_without_k_is_terminal_witness :
  ¬ invokes is_knn_svd (make_dotprops (STreeNeuron three_nodes) (Some 0) RNone).
Proof.
  apply (tree_without_k_is_terminal small_inputs three_nodes (Some 0) RNone).
  reflexivity.
Defined.

(** ** Unit conversion against a dimensionless target *)








(** ** Argument broadcasting *)

(** A callable that tells whether it was given the keyword [key]. *)
Definition has_keyword (key : string) : pyfunc :=
  λ _ kwargs lg, (Ok (VBool (bool_decide (is_Some (kwargs !! key)))), lg).

Definition three_neurons : list value := [VNeuron 1; VNeuron 2; VNeuron 3].

Definition processor (f : pyfunc) (nl : list value) : NeuronProcessor :=
  MkNeuronProcessor nl (replicate (length nl) f) f false (VInt 2) (VInt 1) true.

Definition info_logger : logger := MkLogger 20 30 [].

Lemma parse_arg_distributed n i a e :
  is_iterable a = true -> length (elements a) = n -> elements a !! i = Some e ->
  parse_arg n i a = e.
Proof.
  intros Hi Hn He. unfold parse_arg.
  by rewrite Hi, (bool_decide_eq_true_2 _ Hn), He.
Qed.

Lemma parse_arg_shared n i a :
  ¬ (is_iterable a = true ∧ length (elements a) = n) -> parse_arg n i a = a.
Proof.
  intros Hn. unfold parse_arg.
  destruct (is_iterable a); [|done]. simpl.
  rewrite bool_decide_eq_false_2; [done|]. intros ?. by apply Hn.
Qed.

(** What the claim says item [i] of [n] receives for an argument [a]. *)
Definition receives (n i : nat) (a got : value) : Prop :=
  (is_iterable a = true ∧ length (elements a) = n ->
   elements a !! i = Some got)
  ∧ (¬ (is_iterable a = true ∧ length (elements a) = n) -> got = a).

Lemma parse_arg_receives n i a : (i < n)%nat -> receives n i a (parse_arg n i a).
Proof.
  intros Hi. split.
  - intros [Ht Hn].
    destruct (lookup_lt_is_Some_2 (elements a) i) as [e He]; [lia|].
    by rewrite (parse_arg_distributed n i a e).
  - apply parse_arg_shared.
Qed.

Lemma length_parsed_args n args : length (parsed_args n args) = n.
Proof. unfold parsed_args. by rewrite length_fmap, length_seq. Qed.

Lemma length_parsed_kwargs n kwargs : length (parsed_kwargs n kwargs) = n.
Proof. unfold parsed_kwargs. by rewrite length_fmap, length_seq. Qed.

(** What item [i] of [n] is called with, [a_i] and [kw_i], for the
    arguments [args] and [kwargs] of the call: one positional argument for
    each one of the call; one keyword argument for each one of the call
    other than [parallel] and [n_cores], which it does not get; and no
    keyword the call did not have. *)
Definition item_gets (n i : nat) (args : list value)
  (kwargs : gmap string value) (a_i : list value) (kw_i : gmap string value)
  : Prop :=
  length a_i = length args
  ∧ (∀ j a, args !! j = Some a ->
       ∃ got, a_i !! j = Some got ∧ receives n i a got)
  ∧ (∀ key v, kwargs !! key = Some v -> key ≠ "parallel" -> key ≠ "n_cores" ->
       ∃ got, kw_i !! key = Some got ∧ receives n i v got)
  ∧ kw_i !! "parallel" = None
  ∧ kw_i !! "n_cores" = None
  ∧ (∀ key, kwargs !! key = None -> kw_i !! key = None).

Lemma parsed_item (n i : nat) (args : list value) (kwargs : gmap string value) :
  (i < n)%nat ->
  parsed_args n args !! i = Some (parse_arg n i <$> args)
  ∧ parsed_kwargs n (popped kwargs) !! i = Some (parse_arg n i <$> popped kwargs)
  ∧ item_gets n i args kwargs (parse_arg n i <$> args)
              (parse_arg n i <$> popped kwargs).
Proof.
  intros Hi. unfold parsed_args, parsed_kwargs.
  rewrite !list_lookup_fmap, !lookup_seq_lt by done. simpl.
  split; [done|]. split; [done|]. unfold item_gets. split_and!.
  - by rewrite length_fmap.
  - intros j a Ha. exists (parse_arg n i a).
    rewrite list_lookup_fmap, Ha. split; [done|by apply parse_arg_receives].
  - intros key v Hv H1 H2. exists (parse_arg n i v).
    unfold popped. rewrite lookup_fmap, !lookup_delete_ne, Hv by done.
    split; [done|by apply parse_arg_receives].
  - unfold popped. by rewrite lookup_fmap, lookup_delete_ne, lookup_delete_eq.
  - unfold popped. by rewrite lookup_fmap, lookup_delete_eq.
  - intros key Hk. unfold popped. rewrite lookup_fmap.
    destruct (decide (key = "n_cores")) as [->|]; [by rewrite lookup_delete_eq|].
    rewrite lookup_delete_ne by done.
    destruct (decide (key = "parallel")) as [->|]; [by rewrite lookup_delete_eq|].
    by rewrite lookup_delete_ne, Hk by done.
Qed.

(** C9, as the code has it: a call of the batch applier over [n] neurons
    runs the callables over [n] pairs of arguments, one for each neuron;
    the pair of item [i] has an element for each positional argument and
    for each keyword argument of the call other than [parallel] and
    [n_cores], which no item gets; an argument that is a sequence of
    length [n] gives its element [i], any other argument is passed as it
    is.  The sequential mode calls [function] on the pairs in order; the
    parallel mode hands each function with its pair to the pool. *)
Theorem broadcast (self : NeuronProcessor) (pool : bool) (args : list value)
  (kwargs : gmap string value) (lg : logger) :
  ∃ work : list (list value * gmap string value),
    length work = length (np_nl self)
    ∧ (∀ i a_i kw_i, work !! i = Some (a_i, kw_i) ->
         item_gets (length (np_nl self)) i args kwargs a_i kw_i)
    ∧ (from_option value_truthy (np_parallel self) (kwargs !! "parallel") = false ->
       call_ self pool args kwargs lg
       = match apply_each (np_function self) work (setLevel WARNING lg) with
         | (Err e, lg') => (Err e, lg')
         | (Ok res, lg') =>
             (Ok (assemble res), setLevel (getEffectiveLevel lg) lg')
         end)
    ∧ (from_option value_truthy (np_parallel self) (kwargs !! "parallel") = true ->
       pool = true ->
       ∃ lgw,
         call_ self pool args kwargs lg
         = match pool_imap (zip (zip (np_funcs self) (work.*1)) (work.*2)) lgw with
           | Err e => (Err e, lgw)
           | Ok res => (Ok (assemble res), setLevel (getEffectiveLevel lg) lgw)
           end).
Proof.
  set (n := length (np_nl self)).
  exists (zip (parsed_args n args) (parsed_kwargs n (popped kwargs))).
  assert (Hfst : (zip (parsed_args n args) (parsed_kwargs n (popped kwargs))).*1
                 = parsed_args n args)
    by (apply fst_zip; by rewrite length_parsed_args, length_parsed_kwargs).
  assert (Hsnd : (zip (parsed_args n args) (parsed_kwargs n (popped kwargs))).*2
                 = parsed_kwargs n (popped kwargs))
    by (apply snd_zip; by rewrite length_parsed_args, length_parsed_kwargs).
  split_and!.
  - rewrite length_zip_with, length_parsed_args, length_parsed_kwargs. lia.
  - intros i a_i kw_i Hw.
    apply lookup_zip_with_Some in Hw as (a & kw & [= <- <-] & Ha & Hkw).
    assert (Hi : (i < n)%nat).
    { apply lookup_lt_Some in Ha. by rewrite length_parsed_args in Ha. }
    destruct (parsed_item n i args kwargs Hi) as (Ea & Ek & Hgets).
    rewrite Ea in Ha. rewrite Ek in Hkw. by injection Ha as <-; injection Hkw as <-.
  - intros Hp. unfold call_. rewrite Hp. fold n.
    by destruct (apply_each _ _ _) as [[res|e] lg'].
  - intros Hp ->. unfold call_. rewrite Hp. fold n. simpl negb. cbv iota.
    rewrite Hfst, Hsnd. eexists. reflexivity.
Qed.

(** The keyword [parallel] of a call is not passed on: none of the three
    items is called with it, whereas [inplace] reaches each of them. *)
Lemma parallel_keyword_not_received :
  (call_ (processor (has_keyword "parallel") three_neurons) false
         [VList three_neurons] {[ "parallel" := VBool false ]} info_logger).1
  = Ok (VList [VBool false; VBool false; VBool false])
  ∧ (call_ (processor (has_keyword "inplace") three_neurons) false
         [VList three_neurons] {[ "inplace" := VBool false ]} info_logger).1
  = Ok (VList [VBool true; VBool true; VBool true]).
Proof. by vm_compute. Qed.

(** ** The logger around a batch *)

(** A callable that raises. *)
Definition failing : pyfunc :=
  λ _ _ lg, (Err (ValueError "boom"), lg).

(** A callable that returns its first positional argument. *)
Definition first_arg : pyfunc :=
  λ args _ lg, (Ok (default VNone (args !! 0%nat)), lg).

(** When the batch returns, the level of the logger is the effective
    level it had before the call, whatever the callables did to it. *)
Lemma logger_restored_on_return self pool args kwargs lg v lg' :
  call_ self pool args kwargs lg = (Ok v, lg') ->
  level lg' = getEffectiveLevel lg.
Proof.
  unfold call_.
  destruct (if from_option value_truthy (np_parallel self) (kwargs !! "parallel")
            then _ else _) as [[res|e] lg1]; [|done].
  by intros [= _ <-].
Qed.

(** In parallel mode a failure leaves the logger at [WARNING]: the
    missing pool, or the first item that raises. *)
Lemma logger_not_restored_parallel self pool args kwargs lg e lg' :
  from_option value_truthy (np_parallel self) (kwargs !! "parallel") = true ->
  call_ self pool args kwargs lg = (Err e, lg') ->
  level lg' = WARNING.
Proof.
  unfold call_. intros ->.
  destruct pool; simpl; [|by intros [= _ <-]].
  destruct (pool_imap _ _) as [res|e']; [done|].
  intros [= _ <-].
  destruct (np_warn_inplace self && _); [|done].
  unfold warning. by destruct (_ <=? _).
Qed.

(** In sequential mode, a callable that raises on the first item and
    leaves the logger alone leaves it at [WARNING] as well. *)
Lemma logger_not_restored_sequential self pool args kwargs lg e n nl :
  from_option value_truthy (np_parallel self) (kwargs !! "parallel") = false ->
  np_nl self = n :: nl ->
  (∀ a kw lg0, np_function self a kw lg0 = (Err e, lg0)) ->
  call_ self pool args kwargs lg = (Err e, setLevel WARNING lg).
Proof.
  unfold call_. intros -> Hnl Hf. rewrite Hnl. simpl.
  unfold parsed_args, parsed_kwargs. simpl. by rewrite Hf.
Qed.

(** C2 at a failing item: a batch over one neuron whose callable raises,
    run while the logger is at INFO (20), ends with the exception and the
    logger at WARNING (30); with a callable that returns, the logger is
    back at 20. *)
Theorem logger_left_at_warning_on_error :
  call_ (processor failing [VNeuron 1]) false [VList [VNeuron 1]] ∅ info_logger
  = (Err (ValueError "boom"), MkLogger 30 30 [])
  ∧ call_ (processor first_arg [VNeuron 1]) false [VList [VNeuron 1]] ∅ info_logger
    = (Ok (VNeuronList [VNeuron 1]), info_logger)
  ∧ getEffectiveLevel info_logger = 20.
Proof. by vm_compute. Qed.

(** Without a process pool, a parallel batch fails after the logger has
    been silenced, and leaves it so. *)
Lemma logger_left_at_warning_without_pool :
  call_ (processor first_arg [VNeuron 1]) false [VList [VNeuron 1]]
        {[ "parallel" := VBool true ]} info_logger
  = (Err (ImportError "navis relies on pathos for multiprocessing!"),
     MkLogger 30 30 []).
Proof. by vm_compute. Qed.

(** A logger without a level of its own ([NOTSET]) comes back with the
    level of its ancestors written into it. *)
Lemma logger_notset_not_restored :
  (call_ (processor first_arg [VNeuron 1]) false [VList [VNeuron 1]] ∅
         (MkLogger 0 20 [])).2
  = MkLogger 20 20 [].
Proof. by vm_compute. Qed.

(** ** Degenerate neighbourhoods *)

Definition zero3 (v : vec3) : Prop :=
  Forall (λ c, F64.is_zero c = true) (coords v).

Definition zero_matrix (m : mat3) : Prop :=
  zero3 (m.1.1) ∧ zero3 (m.1.2) ∧ zero3 (m.2).

Definition finite3 (v : vec3) : Prop :=
  Forall (λ c, F64.is_finite c = true) (coords v).

Lemma mapM_result_Ok {A B} (f : A -> result B) (l : list A) (l' : list B) :
  mapM f l = Ok l' <-> Forall2 (λ a b, f a = Ok b) l l'.
Proof.
  revert l'. induction l as [|a l IH]; intros l'; simpl.
  - split; [intros [= <-]; constructor|by intros ->%Forall2_nil_inv_l].
  - split.
    + intros (b & Hb & (k & Hk & [= <-])%result_bind_Ok)%result_bind_Ok.
      constructor; [done|by apply IH].
    + intros (b & k & Hb & Hk & ->)%Forall2_cons_inv_l.
      apply IH in Hk. by rewrite Hb, result_bind_ok_l, Hk.
Qed.

Lemma take_rows_same x row p :
  Forall (λ j, x !! j = Some p) row ->
  take_rows x row = Ok (replicate (length row) p).
Proof.
  intros H. apply mapM_result_Ok.
  induction H as [|j row Hj _ IH]; simpl; constructor; [by rewrite Hj|done].
Qed.

Lemma sub_diag_finite v : F64.is_finite v = true -> F64.sub v v = F64.zero.
Proof.
  destruct v as [[]|[]| |s m e]; try done. intros _.
  unfold F64.sub, SFsub. by rewrite Z.sub_diag.
Qed.

Lemma vsub_diag p : finite3 p -> vsub p p = (F64.zero, F64.zero, F64.zero).
Proof.
  destruct p as [[a b] c]. unfold finite3. simpl.
  rewrite !Forall_cons. intros (? & ? & ? & _).
  by rewrite !sub_diag_finite.
Qed.

Lemma sum_zeros n : F64.sum (replicate n F64.zero) = F64.zero.
Proof. unfold F64.sum. induction n as [|n IH]; [done|apply IH]. Qed.

Lemma dot_col_zeros f g n :
  f (F64.zero, F64.zero, F64.zero) = F64.zero ->
  g (F64.zero, F64.zero, F64.zero) = F64.zero ->
  dot_col f g (replicate n (F64.zero, F64.zero, F64.zero)) = F64.zero.
Proof.
  intros Hf Hg. unfold dot_col. rewrite fmap_replicate, Hf, Hg.
  apply sum_zeros.
Qed.

(** The inertia matrix of a neighbourhood of [n] copies of one finite
    point, when their mean is that point, is the zero matrix. *)
Lemma inertia_degenerate n p :
  finite3 p -> centroid (replicate n p) = p ->
  inertia (centered (replicate n p))
  = ((F64.zero, F64.zero, F64.zero), (F64.zero, F64.zero, F64.zero),
     (F64.zero, F64.zero, F64.zero)).
Proof.
  intros Hp Hc. unfold centered. rewrite fmap_replicate, Hc, vsub_diag by done.
  unfold inertia. by rewrite !dot_col_zeros.
Qed.

(** The confidence of a point whose singular values are all zero. *)
Lemma alpha_of_zeros s : zero3 s -> alpha_of s = F64.nan.
Proof.
  destruct s as [[s0 s1] s2]. unfold zero3. simpl.
  rewrite !Forall_cons. intros (H0 & H1 & H2 & _).
  destruct s0 as [[]| | |], s1 as [[]| | |], s2 as [[]| | |]; done.
Qed.

Lemma inertia_stack_lookup x rows ms i row :
  inertia_stack x (Ix2 rows) = Ok ms -> rows !! i = Some row ->
  ∃ nb, take_rows x row = Ok nb ∧ ms !! i = Some (inertia (centered nb)).
Proof.
  unfold inertia_stack.
  intros (pt & Hpt%mapM_result_Ok & [= <-])%result_bind_Ok Hrow.
  destruct (Forall2_lookup_l _ _ _ _ _ Hpt Hrow) as (nb & Hnb & Htake).
  exists nb. split; [done|]. by rewrite list_lookup_fmap, Hnb.
Qed.

(** C1, as the code has it: when the neighbours of point [i] all have the
    coordinates of one finite point [p], and their mean is computed as [p]
    (so that the centred offsets vanish), the inertia matrix is zero; the
    singular values of a zero matrix being zero, [make_dotprops] does not
    raise, and the confidence of point [i] is NaN, the value of [0 / 0]. *)
Theorem degenerate_alpha_is_nan (h : handler) (pr : properties) (a : ndarray)
  (k : Z) (rows : list (list nat)) (ms : list mat3) (usv : list svd3)
  (i : nat) (row : list nat) (p : vec3) :
  shape_N3 a -> 0 < k ->
  h _ (CKDTreeQuery (cleaned a) (k_eff a k)) = Ok (Ix2 rows) ->
  inertia_stack (cleaned a) (Ix2 rows) = Ok ms ->
  h _ (LinalgSvd ms) = Ok usv ->
  Forall2 (λ m r, zero_matrix m -> zero3 (svd_s r)) ms usv ->
  rows !! i = Some row ->
  Forall (λ j, cleaned a !! j = Some p) row ->
  finite3 p ->
  centroid (replicate (length row) p) = p ->
  ∃ dp alpha,
    run h (knn_dotprops pr a (Some k)) = Ok dp
    ∧ dp_alpha dp = Some alpha
    ∧ alpha !! i = Some F64.nan.
Proof.
  intros Ha Hk Hq Hms Hsvd Hzero Hrow Hsame Hp Hmean.
  eexists _, _. split; [by eapply knn_dotprops_run|]. split; [done|].
  destruct (inertia_stack_lookup _ _ _ _ _ Hms Hrow) as (nb & Hnb & Hm).
  rewrite (take_rows_same _ _ p) in Hnb by done. injection Hnb as <-.
  rewrite inertia_degenerate in Hm by done.
  destruct (Forall2_lookup_l _ _ _ _ _ Hzero Hm) as (r & Hr & Hs).
  rewrite list_lookup_fmap, Hr. simpl. f_equal.
  apply alpha_of_zeros, Hs. by repeat constructor.
Qed.

Lemma degenerate_alpha_is_nan_witness :
  ∃ dp alpha,
    run small_inputs (knn_dotprops no_properties twins (Some 2)) = Ok dp
    ∧ dp_alpha dp = Some alpha
    ∧ alpha !! 0%nat = Some F64.nan.
Proof.
  eapply (degenerate_alpha_is_nan small_inputs no_properties twins 2
            [[0; 1]; [0; 1]]%nat _ _ 0%nat [0; 1]%nat (pt 1 1 1)).
  - by vm_compute.
  - done.
  - by vm_compute.
  - vm_compute. reflexivity.
  - vm_compute. reflexivity.
  - repeat constructor; intros _; by repeat constructor.
  - done.
  - by repeat constructor.
  - by repeat constructor.
  - by vm_compute.
Defined.

(** On two coincident points with [k = 2] the confidences are NaN, not 0. *)
Lemma degenerate_alpha_not_zero :
  ∃ dp, run small_inputs (make_dotprops (SArray twins) (Some 2) RNone)
        = Ok (OneDotprops dp)
        ∧ dp_alpha dp = Some [F64.nan; F64.nan]
        ∧ F64.eqb F64.nan F64.zero = false.
Proof. eexists. by vm_compute. Qed.

(** ** Confidence values

    The confidence [(s0 - s1) / (s0 + s1 + s2)] is computed in float64
    arithmetic.  To bound it, the value of a non-negative float is counted
    in units of [2 ^ -1074], the spacing of the smallest floats, so that
    every float64 is an integer number of units, and rounding to nearest is
    followed through [binary_round_aux]. *)

(** ** Binary64 rounding *)

Definition fexp64 (e : Z) : Z := Z.max (e - 53) (-1074).

Lemma fexp_64 e : fexp F64.prec F64.emax e = fexp64 e.
Proof. reflexivity. Qed.

Lemma digits2_pos_size p : digits2_pos p = Pos.size p.
Proof. induction p as [p IH|p IH|]; simpl; by rewrite ?IH. Qed.

Lemma Zdigits2_log2 m : 0 < m -> Zdigits2 m = Z.log2 m + 1.
Proof.
  destruct m as [|p|p]; try lia. intros _. simpl. rewrite digits2_pos_size.
  destruct p as [p|p|]; simpl; try done; by rewrite Pos2Z.inj_succ.
Qed.

Lemma Zdigits2_bounds m :
  0 < m -> 2 ^ (Zdigits2 m - 1) <= m < 2 ^ Zdigits2 m.
Proof.
  intros Hm. rewrite Zdigits2_log2 by done.
  replace (Z.log2 m + 1 - 1) with (Z.log2 m) by lia.
  apply Z.log2_spec in Hm. by rewrite Z.add_1_r.
Qed.

Lemma Zdigits2_pos m : 0 < m -> 0 < Zdigits2 m.
Proof. intros Hm. rewrite Zdigits2_log2 by done. pose proof (Z.log2_nonneg m). lia. Qed.

Lemma Zdigits2_le_pow m d : 0 < m -> 0 <= d -> m < 2 ^ d -> Zdigits2 m <= d.
Proof.
  intros Hm Hd Hlt. destruct (Zdigits2_bounds m Hm) as [Hlo _].
  destruct (Z.le_gt_cases (Zdigits2 m) d) as [|Hgt]; [done|].
  assert (2 ^ d <= 2 ^ (Zdigits2 m - 1)) by (apply Z.pow_le_mono_r; lia). lia.
Qed.

Lemma Zdigits2_ge_pow m d : 0 <= d -> 2 ^ d <= m -> d + 1 <= Zdigits2 m.
Proof.
  intros Hd Hle. assert (Hm : 0 < m) by (pose proof (Z.pow_pos_nonneg 2 d); lia).
  destruct (Zdigits2_bounds m Hm) as [_ Hhi]. pose proof (Zdigits2_pos m Hm).
  destruct (Z.le_gt_cases (d + 1) (Zdigits2 m)) as [|Hgt]; [done|].
  assert (2 ^ Zdigits2 m <= 2 ^ d) by (apply Z.pow_le_mono_r; lia). lia.
Qed.

(** *** Shifting a mantissa to the right *)

Definition inexact (mrs : shr_record) : bool := shr_r mrs || shr_s mrs.

Lemma iter_pos_nat {A} (f : A -> A) p x :
  SpecFloat.iter_pos f p x = Nat.iter (Pos.to_nat p) f x.
Proof.
  revert x. induction p as [p IH|p IH|]; intros x; [| |done].
  - rewrite Pos2Nat.inj_xI. cbn [SpecFloat.iter_pos]. rewrite !IH.
    replace (S (2 * Pos.to_nat p)) with (Pos.to_nat p + S (Pos.to_nat p))%nat by lia.
    rewrite Nat.iter_add. f_equal. by rewrite Nat.iter_succ_r.
  - rewrite Pos2Nat.inj_xO. cbn [SpecFloat.iter_pos]. rewrite !IH.
    replace (2 * Pos.to_nat p)%nat with (Pos.to_nat p + Pos.to_nat p)%nat by lia.
    by rewrite Nat.iter_add.
Qed.

Lemma shr_1_spec mrs :
  0 <= shr_m mrs ->
  shr_m (shr_1 mrs) = shr_m mrs / 2
  ∧ (inexact mrs = false -> shr_m mrs mod 2 = 0 -> inexact (shr_1 mrs) = false).
Proof.
  destruct mrs as [m r s]. unfold inexact. simpl. intros Hm.
  destruct m as [|[p|p|]|p]; simpl; try lia.
  - split; [done|]. by intros ->.
  - split; [apply Z.div_unique with 1; lia|].
    intros _ H. rewrite Pos2Z.inj_xI in H.
    replace (2 * Z.pos p + 1) with (1 + Z.pos p * 2) in H by lia.
    rewrite Z.mod_add in H by done. done.
  - split; [apply Z.div_unique with 0; lia|].
    by intros ->.
  - split; done.
Qed.

Lemma shr_nat_spec k mrs :
  0 <= shr_m mrs ->
  shr_m (Nat.iter k shr_1 mrs) = shr_m mrs / 2 ^ Z.of_nat k
  ∧ (inexact mrs = false -> shr_m mrs mod 2 ^ Z.of_nat k = 0 ->
     inexact (Nat.iter k shr_1 mrs) = false).
Proof.
  intros Hm. induction k as [|k [IHm IHx]].
  - simpl. rewrite Z.div_1_r. done.
  - rewrite Nat2Z.inj_succ, Z.pow_succ_r by lia. simpl.
    assert (Hk : 0 < 2 ^ Z.of_nat k) by (apply Z.pow_pos_nonneg; lia).
    assert (H0 : 0 <= shr_m (Nat.iter k shr_1 mrs))
      by (rewrite IHm; apply Z.div_pos; lia).
    destruct (shr_1_spec _ H0) as [E1 E2]. split.
    + rewrite E1, IHm, Z.div_div by lia. f_equal. lia.
    + intros Hx Hmod. apply E2.
      * apply IHx; [done|].
        rewrite <- (Z.mul_comm (2 ^ _)) in Hmod.
        rewrite Z.rem_mul_r in Hmod by lia.
        pose proof (Z.mod_pos_bound (shr_m mrs) (2 ^ Z.of_nat k) Hk).
        pose proof (Z.mod_pos_bound (shr_m mrs / 2 ^ Z.of_nat k) 2). nia.
      * rewrite IHm.
        rewrite <- (Z.mul_comm (2 ^ _)) in Hmod.
        rewrite Z.rem_mul_r in Hmod by lia.
        pose proof (Z.mod_pos_bound (shr_m mrs) (2 ^ Z.of_nat k) Hk).
        pose proof (Z.mod_pos_bound (shr_m mrs / 2 ^ Z.of_nat k) 2). nia.
Qed.

Lemma inexact_of_loc m l :
  inexact (shr_record_of_loc m l) = false <-> l = loc_Exact.
Proof. by destruct l as [|[]]. Qed.

Lemma shr_m_of_loc m l : shr_m (shr_record_of_loc m l) = m.
Proof. by destruct l as [|[]]. Qed.

(** [shr] by [n >= 0] binary digits. *)
Lemma shr_spec m l e n :
  0 <= m -> 0 <= n ->
  ∃ mrs, shr (shr_record_of_loc m l) e n = (mrs, e + n)
         ∧ shr_m mrs = m / 2 ^ n
         ∧ (l = loc_Exact -> m mod 2 ^ n = 0 -> inexact mrs = false).
Proof.
  intros Hm Hn. destruct n as [|p|p]; [| |lia].
  - exists (shr_record_of_loc m l). simpl. rewrite Z.add_0_r, Z.div_1_r, shr_m_of_loc.
    split_and!; try done. intros ? _. by apply inexact_of_loc.
  - exists (SpecFloat.iter_pos shr_1 p (shr_record_of_loc m l)).
    split; [done|]. rewrite iter_pos_nat.
    destruct (shr_nat_spec (Pos.to_nat p) (shr_record_of_loc m l)) as [E1 E2];
      [by rewrite shr_m_of_loc|].
    rewrite positive_nat_Z, shr_m_of_loc in *. split; [exact E1|].
    intros Hl Hmod. apply E2; [by apply inexact_of_loc|exact Hmod].
Qed.

Lemma shr_neg mrs e n : n <= 0 -> shr mrs e n = (mrs, e).
Proof. by destruct n. Qed.

Lemma rne_spec mrs :
  round_nearest_even (shr_m mrs) (loc_of_shr_record mrs) = shr_m mrs
  ∨ (round_nearest_even (shr_m mrs) (loc_of_shr_record mrs) = shr_m mrs + 1
     ∧ inexact mrs = true).
Proof.
  destruct mrs as [m [] []]; unfold inexact; simpl; auto.
  destruct (Z.even m); auto.
Qed.

(** The float that [binary_round_aux] builds from the rounded mantissa
    [m2] at the exponent [e1]. *)
Definition rounded (sx : bool) (m2 e1 : Z) : spec_float :=
  if m2 =? 0 then S754_zero sx
  else if m2 <? 2 ^ 53
       then (if e1 <=? 971 then S754_finite sx (Z.to_pos m2) e1
             else S754_infinity sx)
       else (if e1 + 1 <=? 971 then S754_finite sx (Z.to_pos (2 ^ 52)) (e1 + 1)
             else S754_infinity sx).

Lemma second_shr sx m2 e1 :
  0 <= m2 <= 2 ^ 53 -> -1074 <= e1 ->
  (let '(mrs'', e'') := shr_fexp F64.prec F64.emax m2 e1 loc_Exact in
   match shr_m mrs'' with
   | Z0 => S754_zero sx
   | Zpos m => if e'' <=? F64.emax - F64.prec then S754_finite sx m e''
               else S754_infinity sx
   | Zneg _ => S754_nan
   end) = rounded sx m2 e1.
Proof.
  intros Hm He. unfold shr_fexp, rounded. rewrite fexp_64.
  destruct (Z.eqb_spec m2 0) as [->|Hnz].
  { simpl Zdigits2. rewrite shr_neg by (unfold fexp64; lia). done. }
  destruct (Z.ltb_spec m2 (2 ^ 53)) as [Hlt|Hge].
  - assert (Zdigits2 m2 <= 53) by (apply Zdigits2_le_pow; lia).
    rewrite shr_neg by (unfold fexp64; lia). simpl shr_m.
    destruct m2; try lia. done.
  - assert (m2 = 2 ^ 53) as -> by lia.
    change (Zdigits2 (2 ^ 53)) with 54.
    replace (fexp64 (54 + e1) - e1) with 1 by (unfold fexp64; lia).
    done.
Qed.

(** What [binary_round_aux] returns for a mantissa [m] that has at least
    as many digits as the format wants at the exponent [e]. *)
Lemma round_aux_spec sx m e lx :
  0 <= m -> e <= fexp64 (Zdigits2 m + e) ->
  ∃ m2,
    (m2 = m / 2 ^ (fexp64 (Zdigits2 m + e) - e)
     ∨ (m2 = m / 2 ^ (fexp64 (Zdigits2 m + e) - e) + 1
        ∧ (lx ≠ loc_Exact ∨ m mod 2 ^ (fexp64 (Zdigits2 m + e) - e) ≠ 0)))
    ∧ m / 2 ^ (fexp64 (Zdigits2 m + e) - e) < 2 ^ 53
    ∧ (fexp64 (Zdigits2 m + e) = -1074
       ∨ 2 ^ 52 <= m / 2 ^ (fexp64 (Zdigits2 m + e) - e))
    ∧ binary_round_aux F64.prec F64.emax sx m e lx
      = rounded sx m2 (fexp64 (Zdigits2 m + e)).
Proof.
  intros Hm He.
  set (e1 := fexp64 (Zdigits2 m + e)) in *. set (n := e1 - e).
  assert (Hn : 0 <= n) by (unfold n; lia).
  assert (Hpow : 0 < 2 ^ n) by (by apply Z.pow_pos_nonneg).
  assert (Hm1 : 0 <= m / 2 ^ n) by (by apply Z.div_pos).
  assert (Hlt : m / 2 ^ n < 2 ^ 53).
  { destruct (Z.eq_dec m 0) as [->|Hnz]; [by rewrite Z.div_0_l by lia|].
    apply Z.div_lt_upper_bound; [done|].
    destruct (Zdigits2_bounds m) as [_ Hhi]; [lia|].
    pose proof (Zdigits2_pos m ltac:(lia)).
    rewrite <- Z.pow_add_r by lia.
    eapply Z.lt_le_trans; [exact Hhi|]. apply Z.pow_le_mono_r; [lia|].
    unfold n, e1, fexp64. lia. }
  assert (Hnorm : e1 = -1074 ∨ 2 ^ 52 <= m / 2 ^ n).
  { destruct (Z.eq_dec e1 (-1074)) as [|Hne]; [by left|right].
    assert (0 < m).
    { destruct (Z.eq_dec m 0) as [->|]; [|lia].
      exfalso. simpl Zdigits2 in *. unfold e1, fexp64 in *. lia. }
    destruct (Zdigits2_bounds m) as [Hlo _]; [done|].
    assert (e1 = Zdigits2 m + e - 53) by (unfold e1, fexp64 in *; lia).
    apply Z.div_le_lower_bound; [done|].
    rewrite <- Z.pow_add_r by lia.
    replace (n + 52) with (Zdigits2 m - 1) by (unfold n; lia). done. }
  destruct (shr_spec m lx e n Hm Hn) as (mrs & Hshr & Hmrs & Hex).
  destruct (rne_spec mrs) as [Hr|[Hr Hin]].
  - exists (m / 2 ^ n). split; [by left|]. split; [done|]. split; [done|].
    unfold binary_round_aux, shr_fexp at 1. rewrite fexp_64. fold e1. fold n.
    rewrite Hshr, Hr, Hmrs. replace (e + n) with e1 by (unfold n; lia).
    apply second_shr; [lia|unfold e1, fexp64; lia].
  - exists (m / 2 ^ n + 1). split.
    { right. split; [done|].
      destruct lx as [|c]; [|by left]. right.
      intros Hmod. by rewrite Hex in Hin. }
    split; [done|]. split; [done|].
    unfold binary_round_aux, shr_fexp at 1. rewrite fexp_64. fold e1. fold n.
    rewrite Hshr, Hr, Hmrs. replace (e + n) with e1 by (unfold n; lia).
    apply second_shr; [lia|unfold e1, fexp64; lia].
Qed.

(** *** Floats as integers *)

(** The value of a non-negative float, in units of [2 ^ -1074]. *)
Definition ival (x : spec_float) : Z :=
  match x with
  | S754_finite _ m e => Z.pos m * 2 ^ (e + 1074)
  | _ => 0
  end.

(** A zero, or a positive finite float on the grid of the format. *)
Definition fin_nonneg (x : spec_float) : Prop :=
  match x with
  | S754_zero _ => True
  | S754_finite false m e => -1074 <= e ∧ Z.pos m < 2 ^ 53
  | _ => False
  end.

(** The exponent of the format for a value of [S] units. *)
Definition cexp (S : Z) : Z := fexp64 (Zdigits2 S - 1074).

Lemma Zdigits2_mul_pow m k :
  0 < m -> 0 <= k -> Zdigits2 (m * 2 ^ k) = Zdigits2 m + k.
Proof.
  intros Hm Hk. assert (0 < 2 ^ k) by (by apply Z.pow_pos_nonneg).
  rewrite !Zdigits2_log2 by nia.
  rewrite Z.log2_mul_pow2 by lia. lia.
Qed.

Lemma Zdigits2_mono a b : 0 < a -> a <= b -> Zdigits2 a <= Zdigits2 b.
Proof.
  intros Ha Hab. rewrite !Zdigits2_log2 by lia.
  pose proof (Z.log2_le_mono a b Hab). lia.
Qed.

Lemma cexp_mono a b : 0 < a -> a <= b -> cexp a <= cexp b.
Proof.
  intros Ha Hab. pose proof (Zdigits2_mono a b Ha Hab). unfold cexp, fexp64. lia.
Qed.

Lemma cexp_ge S : -1074 <= cexp S.
Proof. unfold cexp, fexp64. lia. Qed.

Lemma valid_finite_inv s m e :
  F64.valid (S754_finite s m e) = true ->
  -1074 <= e <= 971 ∧ Z.pos m < 2 ^ 53
  ∧ cexp (Z.pos m * 2 ^ (e + 1074)) = e.
Proof.
  unfold F64.valid, valid_binary, bounded, canonical_mantissa.
  rewrite fexp_64. intros [H1 H2]%andb_prop.
  apply Z.eqb_eq in H1. apply Z.leb_le in H2.
  change (F64.emax - F64.prec) with 971 in H2.
  change (Z.pos (digits2_pos m)) with (Zdigits2 (Z.pos m)) in H1.
  assert (-1074 <= e) by (unfold fexp64 in H1; lia).
  destruct (Zdigits2_bounds (Z.pos m)) as [_ Hhi]; [done|].
  assert (Zdigits2 (Z.pos m) <= 53) by (unfold fexp64 in H1; lia).
  split; [lia|]. split.
  - eapply Z.lt_le_trans; [exact Hhi|]. apply Z.pow_le_mono_r; lia.
  - unfold cexp. rewrite Zdigits2_mul_pow by lia.
    replace (Zdigits2 (Z.pos m) + (e + 1074) - 1074) with (Zdigits2 (Z.pos m) + e)
      by lia. done.
Qed.

Lemma valid_fin_nonneg x :
  F64.valid x = true -> F64.is_finite x = true -> F64.leb F64.zero x = true ->
  fin_nonneg x.
Proof.
  destruct x as [s|s| |[] m e]; try done.
  intros Hv _ _. apply valid_finite_inv in Hv. simpl. lia.
Qed.

(** The order of valid floats is the order of their values. *)
Lemma leb_ival x y :
  F64.valid x = true -> F64.valid y = true ->
  fin_nonneg x -> fin_nonneg y ->
  F64.leb x y = true -> ival x <= ival y.
Proof.
  destruct x as [sx| | |[] mx ex], y as [sy| | |[] my ey]; try done; simpl.
  - intros _ _ _ _ _.
    pose proof (Z.pow_nonneg 2 (ey + 1074)). lia.
  - intros Hx Hy _ _.
    apply (valid_finite_inv false mx ex) in Hx as (Hex & Hmx & Hcx).
    apply (valid_finite_inv false my ey) in Hy as (Hey & Hmy & Hcy).
    unfold F64.leb, SFleb, SFcompare.
    destruct (Z.compare_spec ex ey) as [->|Hlt|Hgt]; [| |done].
    + change (Pos.compare_cont Eq mx my) with (Pos.compare mx my).
      assert (0 < 2 ^ (ey + 1074)) by (apply Z.pow_pos_nonneg; lia).
      destruct (Pos.compare_spec mx my) as [->|Hm|Hm]; try done; intros _; nia.
    + intros _.
      assert (Hd : Zdigits2 (Z.pos my) = 53).
      { unfold cexp in Hcy. rewrite Zdigits2_mul_pow in Hcy by lia.
        unfold fexp64 in Hcy. lia. }
      destruct (Zdigits2_bounds (Z.pos my)) as [Hlo _]; [done|].
      rewrite Hd in Hlo. change (53 - 1) with 52 in Hlo.
      assert (0 < 2 ^ (ex + 1074)) by (apply Z.pow_pos_nonneg; lia).
      replace (ey + 1074) with ((ex + 1074) + (ey - ex)) by lia.
      rewrite (Z.pow_add_r 2 (ex + 1074) (ey - ex)) by lia.
      assert (2 <= 2 ^ (ey - ex)).
      { change 2 with (2 ^ 1) at 1. apply Z.pow_le_mono_r; lia. }
      change (2 ^ 53) with (2 * 2 ^ 52) in Hmx.
      set (T := 2 ^ 52) in *. clearbody T.
      assert (Z.pos mx <= Z.pos my * 2 ^ (ey - ex)) by nia.
      rewrite (Z.mul_comm (2 ^ (ex + 1074))), Z.mul_assoc.
      apply Z.mul_le_mono_nonneg_r; lia.
Qed.

Lemma pos_iter_xO M d : Z.pos (Pos.iter xO M d) = Z.pos M * 2 ^ Z.pos d.
Proof.
  induction d as [|d IH] using Pos.peano_ind.
  - simpl. lia.
  - rewrite Pos.iter_succ, Pos2Z.inj_xO, IH, Pos2Z.inj_succ, Z.pow_succ_r by lia.
    lia.
Qed.

Lemma shl_align_spec M ez e' :
  (shl_align M ez e').2 = Z.min ez e'
  ∧ Z.pos (shl_align M ez e').1 = Z.pos M * 2 ^ (ez - Z.min ez e').
Proof.
  unfold shl_align. destruct (e' - ez) as [|d|d] eqn:E; simpl.
  - replace (Z.min ez e') with ez by lia. rewrite Z.sub_diag. simpl. lia.
  - replace (Z.min ez e') with ez by lia. rewrite Z.sub_diag. simpl. lia.
  - replace (Z.min ez e') with e' by lia. rewrite pos_iter_xO.
    split; [done|]. do 2 f_equal. lia.
Qed.

(** The two candidates for rounding a value of [S] units: the multiples
    of the unit of its exponent just below and, when [S] is not one
    itself, just above. *)
Definition candidate (S m2 : Z) : Prop :=
  let U := 2 ^ (cexp S + 1074) in
  (m2 = S / U ∨ (m2 = S / U + 1 ∧ S mod U ≠ 0))
  ∧ S / U < 2 ^ 53
  ∧ (cexp S = -1074 ∨ 2 ^ 52 <= S / U).

(** [binary_normalize] on a positive integer number of units. *)
Lemma normalize_spec M ez :
  -1074 <= ez ->
  ∃ m2, candidate (Z.pos M * 2 ^ (ez + 1074)) m2
        ∧ binary_normalize F64.prec F64.emax (Z.pos M) ez false
          = rounded false m2 (cexp (Z.pos M * 2 ^ (ez + 1074))).
Proof.
  intros Hez. set (S := Z.pos M * 2 ^ (ez + 1074)).
  assert (Hc : cexp S = fexp64 (Zdigits2 (Z.pos M) + ez)).
  { unfold cexp, S. rewrite Zdigits2_mul_pow by lia. f_equal. lia. }
  unfold binary_normalize, binary_round. rewrite fexp_64.
  change (Z.pos (digits2_pos M)) with (Zdigits2 (Z.pos M)). rewrite <- Hc.
  destruct (shl_align_spec M ez (cexp S)) as [E2 E1].
  destruct (shl_align M ez (cexp S)) as [mz ez']. simpl in E1, E2. subst ez'.
  pose proof (cexp_ge S) as Hge.
  set (ez' := Z.min ez (cexp S)) in *.
  assert (Hez' : -1074 <= ez' ∧ ez' <= ez ∧ ez' <= cexp S) by (unfold ez'; lia).
  clearbody ez'.
  assert (Hd : Zdigits2 (Z.pos mz) + ez' = Zdigits2 (Z.pos M) + ez).
  { rewrite E1, Zdigits2_mul_pow by lia. lia. }
  destruct (round_aux_spec false (Z.pos mz) ez' loc_Exact) as (m2 & Hm2 & Hlt & Hn & Hr);
    [lia|rewrite Hd, <- Hc; lia|].
  rewrite Hd, <- Hc in *. exists m2. split; [|done].
  unfold candidate.
  assert (HS : S = Z.pos mz * 2 ^ (ez' + 1074)).
  { unfold S. rewrite E1, <- Z.mul_assoc, <- Z.pow_add_r by lia. do 2 f_equal. lia. }
  fold S. remember (cexp S) as c eqn:Ec. clear Ec Hc.
  assert (HW : 0 < 2 ^ (ez' + 1074)) by (apply Z.pow_pos_nonneg; lia).
  assert (Hn0 : 0 < 2 ^ (c - ez')) by (apply Z.pow_pos_nonneg; lia).
  assert (HU : 2 ^ (c + 1074) = 2 ^ (c - ez') * 2 ^ (ez' + 1074)).
  { rewrite <- Z.pow_add_r by lia. f_equal. lia. }
  rewrite HU, HS.
  rewrite Z.div_mul_cancel_r by lia.
  rewrite Z.mul_mod_distr_r by lia.
  split; [|done].
  destruct Hm2 as [->|[-> [?|Hmod]]]; [by left|done|].
  right. split; [done|]. nia.
Qed.

(** A positive finite float on the grid of the format. *)
Definition fin_pos (x : spec_float) : Prop :=
  match x with
  | S754_finite false m e => -1074 <= e ∧ Z.pos m < 2 ^ 53
  | _ => False
  end.

Lemma fin_pos_nonneg x : fin_pos x -> fin_nonneg x.
Proof. by destruct x as [| | |[]]. Qed.

Lemma fin_nonneg_pos x : fin_nonneg x -> 0 < ival x -> fin_pos x.
Proof. destruct x as [| | |[]]; simpl; try done; lia. Qed.

Lemma ival_pos x : fin_pos x -> 0 < ival x.
Proof.
  destruct x as [| | |[] m e]; try done. simpl. intros [He _].
  assert (0 < 2 ^ (e + 1074)) by (apply Z.pow_pos_nonneg; lia). lia.
Qed.

(** The float built from a rounded mantissa: its value, unless it
    overflows. *)
Lemma rounded_cases m2 e1 :
  0 <= m2 <= 2 ^ 53 -> -1074 <= e1 ->
  (rounded false m2 e1 = S754_infinity false
   ∧ (971 < e1 ∨ (m2 = 2 ^ 53 ∧ 971 <= e1)))
  ∨ (fin_nonneg (rounded false m2 e1)
     ∧ ival (rounded false m2 e1) = m2 * 2 ^ (e1 + 1074)).
Proof.
  intros Hm He. unfold rounded.
  destruct (Z.eqb_spec m2 0) as [->|Hnz]; [by right|].
  destruct (Z.ltb_spec m2 (2 ^ 53)) as [Hlt|Hge].
  - destruct (Z.leb_spec e1 971); [right|left; split; [done|lia]].
    unfold fin_nonneg, ival. rewrite Z2Pos.id by lia. split; [lia|done].
  - assert (m2 = 2 ^ 53) as -> by lia.
    destruct (Z.leb_spec (e1 + 1) 971); [right|left; split; [done|lia]].
    unfold fin_nonneg, ival. rewrite Z2Pos.id by done.
    split; [split; [lia|done]|].
    replace (e1 + 1 + 1074) with (Z.succ (e1 + 1074)) by lia.
    rewrite Z.pow_succ_r by lia.
    change (2 ^ 53) with (2 ^ 52 * 2). lia.
Qed.

(** Rounding does not go above a float that is above the value. *)
Lemma candidate_le S G m2 :
  0 < S <= G -> candidate S m2 ->
  (2 ^ (cexp S + 1074) | G) ->
  m2 * 2 ^ (cexp S + 1074) <= G.
Proof.
  intros HS (Hm2 & _ & _) [c Hc].
  pose proof (cexp_ge S).
  set (U := 2 ^ (cexp S + 1074)) in *.
  assert (HU : 0 < U) by (apply Z.pow_pos_nonneg; lia).
  pose proof (Z.div_mod S U ltac:(lia)) as Hdm.
  pose proof (Z.mod_pos_bound S U HU) as Hmod.
  clearbody U. subst G.
  destruct Hm2 as [->|[-> Hne]].
  - rewrite (Z.mul_comm (S / U)). lia.
  - apply Z.mul_le_mono_nonneg_r; [lia|].
    assert (S / U < c); [|lia].
    apply Z.div_lt_upper_bound; [done|].
    destruct (Z.eq_dec S (U * c)) as [E|]; [|lia].
    exfalso. apply Hne. rewrite E, Z.mul_comm. by apply Z.mod_mul, Z.neq_sym, Z.lt_neq.
Qed.

(** Rounding does not go below a float that is below the value. *)
Lemma candidate_ge S m2 mg eg :
  0 < mg < 2 ^ 53 -> -1074 <= eg ->
  mg * 2 ^ (eg + 1074) <= S -> candidate S m2 ->
  mg * 2 ^ (eg + 1074) <= m2 * 2 ^ (cexp S + 1074).
Proof.
  intros Hmg Heg HG (Hm2 & _ & Hnorm).
  pose proof (cexp_ge S).
  assert (HW : 0 < 2 ^ (eg + 1074)) by (apply Z.pow_pos_nonneg; lia).
  set (U := 2 ^ (cexp S + 1074)) in *.
  assert (HU : 0 < U) by (apply Z.pow_pos_nonneg; lia).
  assert (Hfloor : mg * 2 ^ (eg + 1074) <= S / U * U).
  { destruct (Z.le_gt_cases (cexp S) eg) as [Hle|Hgt].
    - assert (2 ^ (eg + 1074) = 2 ^ (eg - cexp S) * U) as ->.
      { unfold U. rewrite <- Z.pow_add_r by lia. f_equal. lia. }
      rewrite Z.mul_assoc. apply Z.mul_le_mono_nonneg_r; [lia|].
      apply Z.div_le_lower_bound; [done|].
      rewrite Z.mul_comm, <- Z.mul_assoc.
      replace (2 ^ (eg - cexp S) * U) with (2 ^ (eg + 1074)); [done|].
      unfold U. rewrite <- Z.pow_add_r by lia. f_equal. lia.
    - destruct Hnorm as [?|Hn]; [lia|].
      assert (2 * 2 ^ (eg + 1074) <= U).
      { unfold U. replace (cexp S + 1074) with ((cexp S - eg - 1) + Z.succ (eg + 1074)) by lia.
        rewrite (Z.pow_add_r 2 (cexp S - eg - 1)), Z.pow_succ_r by lia.
        assert (0 < 2 ^ (cexp S - eg - 1)) by (apply Z.pow_pos_nonneg; lia).
        set (P := 2 ^ (cexp S - eg - 1)) in *. set (W := 2 ^ (eg + 1074)) in *.
        clearbody P W. clear -HW H0. nia. }
      change (2 ^ 53) with (2 * 2 ^ 52) in Hmg.
      set (T := 2 ^ 52) in *. set (W := 2 ^ (eg + 1074)) in *.
      clearbody T W U.
      assert (mg * W <= 2 * T * W) by (apply Z.mul_le_mono_nonneg_r; lia).
      assert (T * U <= S / U * U) by (apply Z.mul_le_mono_nonneg_r; lia).
      nia. }
  clearbody U.
  destruct Hm2 as [->|[-> _]]; lia.
Qed.

Lemma candidate_bounds S m2 : 0 <= S -> candidate S m2 -> 0 <= m2 <= 2 ^ 53.
Proof.
  intros HS (Hm2 & Hlt & _). pose proof (cexp_ge S).
  assert (0 < 2 ^ (cexp S + 1074)) by (apply Z.pow_pos_nonneg; lia).
  assert (0 <= S / 2 ^ (cexp S + 1074)) by (by apply Z.div_pos).
  destruct Hm2 as [->|[-> _]]; lia.
Qed.

Lemma ival_finite s m e : ival (S754_finite s m e) = Z.pos m * 2 ^ (e + 1074).
Proof. done. Qed.

(** The aligned mantissa of a float has its value. *)
Lemma shl_align_ival m e ez :
  -1074 <= ez -> ez <= e ->
  Z.pos (shl_align m e ez).1 * 2 ^ (ez + 1074) = Z.pos m * 2 ^ (e + 1074).
Proof.
  intros H1 H2. destruct (shl_align_spec m e ez) as [_ ->].
  replace (Z.min e ez) with ez by lia.
  rewrite <- Z.mul_assoc, <- Z.pow_add_r by lia. do 2 f_equal. lia.
Qed.

(** Subtracting a smaller non-negative float from a positive one gives a
    non-negative float that is not above the first. *)
Lemma sub_bound x y :
  F64.valid x = true -> fin_pos x -> fin_nonneg y -> ival y <= ival x ->
  fin_nonneg (F64.sub x y) ∧ ival (F64.sub x y) <= ival x.
Proof.
  destruct x as [| | |[] mx ex]; try done.
  intros Hvx [Hex Hmx] Hy Hle.
  destruct y as [sy| | |[] my ey]; try done.
  destruct Hy as [Hey Hmy].
  apply valid_finite_inv in Hvx as (Hex' & _ & Hcx).
  unfold F64.sub, SFsub. cbv zeta.
  set (ez := Z.min ex ey).
  assert (Hez : -1074 <= ez ∧ ez <= ex ∧ ez <= ey) by (unfold ez; lia).
  pose proof (shl_align_ival mx ex ez ltac:(lia) ltac:(lia)) as Ea.
  pose proof (shl_align_ival my ey ez ltac:(lia) ltac:(lia)) as Eb.
  rewrite !ival_finite in *.
  set (G := Z.pos mx * 2 ^ (ex + 1074)) in *.
  set (A := (shl_align mx ex ez).1) in *. set (B := (shl_align my ey ez).1) in *.
  clearbody A B. unfold cond_Zopp.
  assert (HW : 0 < 2 ^ (ez + 1074)) by (apply Z.pow_pos_nonneg; lia).
  assert (HG : 0 < G) by (unfold G; apply Z.mul_pos_pos; [done|apply Z.pow_pos_nonneg; lia]).
  destruct (Z.pos A - Z.pos B) as [|M|M] eqn:ED.
  - simpl. split; [done|lia].
  - simpl binary_normalize.
    change (binary_round F64.prec F64.emax false M ez)
      with (binary_normalize F64.prec F64.emax (Z.pos M) ez false).
    destruct (normalize_spec M ez) as (m2 & Hc & ->); [lia|].
    set (S := Z.pos M * 2 ^ (ez + 1074)) in *.
    assert (HS : 0 < S <= G).
    { split; [unfold S; apply Z.mul_pos_pos; [done|lia]|].
      unfold S. rewrite <- ED, Z.mul_sub_distr_r, Ea.
      pose proof (Z.pow_nonneg 2 (ez + 1074)). nia. }
    assert (HcS : cexp S <= ex) by (rewrite <- Hcx; apply cexp_mono; lia).
    pose proof (cexp_ge S) as HcS'.
    assert (Hdiv : (2 ^ (cexp S + 1074) | G)).
    { exists (Z.pos mx * 2 ^ (ex - cexp S)). unfold G.
      rewrite <- Z.mul_assoc, <- Z.pow_add_r by lia. do 2 f_equal. lia. }
    pose proof (candidate_le S G m2 HS Hc Hdiv) as Hm2.
    pose proof (candidate_bounds S m2 ltac:(lia) Hc) as Hb.
    destruct (rounded_cases m2 (cexp S) Hb HcS') as [[_ Hinf]|[Hf Hv]].
    + exfalso. destruct Hinf as [?|[-> ?]]; [lia|].
      assert (cexp S = ex) as E by lia. rewrite E in Hm2. unfold G in Hm2.
      assert (0 < 2 ^ (ex + 1074)) by (apply Z.pow_pos_nonneg; lia).
      nia.
    + split; [done|]. by rewrite Hv.
  - exfalso. assert (Z.pos A * 2 ^ (ez + 1074) < Z.pos B * 2 ^ (ez + 1074)).
    { apply Z.mul_lt_mono_pos_r; lia. }
    lia.
Qed.

(** Positive infinity, or a positive float of at least [G] units. *)
Definition above (G : Z) (t : spec_float) : Prop :=
  t = S754_infinity false ∨ (fin_pos t ∧ G <= ival t).

(** Adding a non-negative float does not take a sum below what it was
    above. *)
Lemma add_above G x y :
  above G x -> fin_nonneg y -> above G (F64.add x y).
Proof.
  intros [->|[Hx HG]] Hy.
  { left. by destruct y as [| | |[]]. }
  destruct x as [| | |[] mx ex]; try done. destruct Hx as [Hex Hmx].
  destruct y as [sy| | |[] my ey]; try done.
  { right. by split. }
  destruct Hy as [Hey Hmy].
  unfold F64.add, SFadd. cbv zeta.
  set (ez := Z.min ex ey).
  assert (Hez : -1074 <= ez ∧ ez <= ex ∧ ez <= ey) by (unfold ez; lia).
  pose proof (shl_align_ival mx ex ez ltac:(lia) ltac:(lia)) as Ea.
  pose proof (shl_align_ival my ey ez ltac:(lia) ltac:(lia)) as Eb.
  rewrite ival_finite in HG.
  set (A := (shl_align mx ex ez).1) in *. set (B := (shl_align my ey ez).1) in *.
  clearbody A B. simpl cond_Zopp. simpl binary_normalize.
  change (binary_round F64.prec F64.emax false (A + B) ez)
    with (binary_normalize F64.prec F64.emax (Z.pos (A + B)) ez false).
  destruct (normalize_spec (A + B)%positive ez) as (m2 & Hc & ->); [lia|].
  set (S := Z.pos (A + B) * 2 ^ (ez + 1074)) in *.
  assert (HW : 0 < 2 ^ (ez + 1074)) by (apply Z.pow_pos_nonneg; lia).
  assert (HS : Z.pos mx * 2 ^ (ex + 1074) <= S).
  { unfold S. rewrite Pos2Z.inj_add, Z.mul_add_distr_r, Ea. nia. }
  pose proof (candidate_ge S m2 (Z.pos mx) ex ltac:(lia) Hex HS Hc) as Hm2.
  assert (0 < Z.pos mx * 2 ^ (ex + 1074)).
  { apply Z.mul_pos_pos; [done|apply Z.pow_pos_nonneg; lia]. }
  pose proof (candidate_bounds S m2 ltac:(lia) Hc) as Hb.
  destruct (rounded_cases m2 (cexp S) Hb (cexp_ge S)) as [[-> _]|[Hf Hv]].
  - by left.
  - right. split; [apply fin_nonneg_pos; [done|lia]|lia].
Qed.

Lemma above_self x : fin_pos x -> above (ival x) x.
Proof. intros Hx. right. split; [done|lia]. Qed.

(** A float between 0 and 1. *)
Definition in_unit_interval (v : f64) : Prop :=
  F64.leb F64.zero v = true ∧ F64.leb v F64.one = true.

Lemma one_eq : F64.one = S754_finite false 4503599627370496 (-52).
Proof. reflexivity. Qed.

Lemma compare_cont_Eq p q : Pos.compare_cont Eq p q = (p ?= q)%positive.
Proof. reflexivity. Qed.

Lemma rounded_le_one m2 e1 :
  -1074 <= e1 <= -52 -> 0 <= m2 <= 2 ^ (- e1) -> m2 <= 2 ^ 53 ->
  in_unit_interval (rounded false m2 e1).
Proof.
  intros He Hm Hm'. unfold in_unit_interval, rounded. rewrite one_eq.
  destruct (Z.eqb_spec m2 0) as [->|Hnz]; [done|].
  destruct (Z.ltb_spec m2 (2 ^ 53)) as [Hlt|Hge].
  - rewrite (proj2 (Z.leb_le e1 971)) by lia. split; [done|].
    unfold F64.leb, SFleb, SFcompare.
    destruct (Z.compare_spec e1 (-52)) as [->|?|?]; [|done|lia].
    rewrite compare_cont_Eq.
    change (2 ^ (- -52)) with (Z.pos 4503599627370496) in Hm.
    destruct (Pos.compare_spec (Z.to_pos m2) 4503599627370496) as [?|?|Hgt];
      [done|done|].
    exfalso. apply Pos2Z.pos_lt_pos in Hgt. rewrite Z2Pos.id in Hgt by lia. lia.
  - assert (m2 = 2 ^ 53) as -> by lia.
    assert (e1 <= -53).
    { destruct (Z.le_gt_cases e1 (-53)) as [|Hgt]; [done|exfalso].
      assert (e1 = -52) as -> by lia. revert Hm. clear. simpl. lia. }
    rewrite (proj2 (Z.leb_le (e1 + 1) 971)) by lia. split; [done|].
    unfold F64.leb, SFleb, SFcompare.
    destruct (Z.compare_spec (e1 + 1) (-52)) as [?|?|?]; [done|done|lia].
Qed.

Lemma fexp64_mono a b : a <= b -> fexp64 a <= fexp64 b.
Proof. unfold fexp64. lia. Qed.

Lemma Zdigits2_nonneg m : 0 <= m -> 0 <= Zdigits2 m.
Proof.
  intros Hm. destruct (Z.eq_dec m 0) as [->|]; [done|].
  pose proof (Zdigits2_pos m). lia.
Qed.

Lemma new_location_exact nb r : new_location nb r = loc_Exact <-> r = 0.
Proof.
  unfold new_location, new_location_even, new_location_odd.
  destruct (Z.even nb), (Z.eqb_spec r 0); split; done.
Qed.

(** The quotient of a positive float by one that is at least as large. *)
Lemma div_finite_bound ma ea mb eb :
  -1074 <= ea -> -1074 <= eb ->
  Z.pos ma * 2 ^ (ea + 1074) <= Z.pos mb * 2 ^ (eb + 1074) ->
  in_unit_interval
    (F64.div (S754_finite false ma ea) (S754_finite false mb eb)).
Proof.
  intros Hea Heb Hle. unfold F64.div, SFdiv, SFdiv_core_binary.
  rewrite fexp_64. cbv zeta.
  set (d1 := Zdigits2 (Z.pos ma)). set (d2 := Zdigits2 (Z.pos mb)).
  destruct (Zdigits2_bounds (Z.pos ma)) as [Ha1 Ha2]; [done|].
  destruct (Zdigits2_bounds (Z.pos mb)) as [Hb1 Hb2]; [done|].
  pose proof (Zdigits2_pos (Z.pos ma) ltac:(done)) as Hd1.
  pose proof (Zdigits2_pos (Z.pos mb) ltac:(done)) as Hd2.
  fold d1 in Ha1, Ha2, Hd1. fold d2 in Hb1, Hb2, Hd2.
  assert (Hdelta : d1 + ea - (d2 + eb) <= 0).
  { assert (2 ^ (d1 - 1 + (ea + 1074)) < 2 ^ (d2 + (eb + 1074))) as Hlt.
    { rewrite (Z.pow_add_r 2 (d1 - 1) (ea + 1074)) by lia.
      rewrite (Z.pow_add_r 2 d2 (eb + 1074)) by lia.
      assert (0 < 2 ^ (ea + 1074)) by (apply Z.pow_pos_nonneg; lia).
      assert (0 < 2 ^ (eb + 1074)) by (apply Z.pow_pos_nonneg; lia).
      eapply Z.le_lt_trans; [|apply Z.mul_lt_mono_pos_r; [lia|exact Hb2]].
      etrans; [|exact Hle]. apply Z.mul_le_mono_nonneg_r; lia. }
    apply Z.pow_lt_mono_r_iff in Hlt; lia. }
  set (e' := Z.min (fexp64 (d1 + ea - (d2 + eb))) (ea - eb)).
  assert (He' : e' <= -53 ∧ e' <= ea - eb ∧ e' <= fexp64 (d1 + ea - (d2 + eb)))
    by (unfold e', fexp64; lia).
  set (s := ea - eb - e').
  assert (Hs : 0 <= s) by (unfold s; lia).
  set (m' := match s with Z.pos _ => Z.shiftl (Z.pos ma) s | 0 => Z.pos ma | Z.neg _ => 0 end).
  assert (Hm' : m' = Z.pos ma * 2 ^ s).
  { unfold m'. destruct s as [|p|p] eqn:Es; [simpl; lia| |lia].
    by rewrite Z.shiftl_mul_pow2. }
  clearbody m'.
  pose proof (Z.div_mod m' (Z.pos mb) ltac:(done)) as Hdm.
  pose proof (Z.mod_pos_bound m' (Z.pos mb) ltac:(done)) as Hmod.
  unfold Z.div, Z.modulo in Hdm, Hmod.
  destruct (Z.div_eucl m' (Z.pos mb)) as [q r]. simpl in Hdm, Hmod.
  set (K := - e'). assert (HK : 53 <= K) by (unfold K; lia).
  assert (HPs : 0 < 2 ^ s) by (by apply Z.pow_pos_nonneg).
  assert (HPK : 0 < 2 ^ K) by (apply Z.pow_pos_nonneg; lia).
  assert (Hm'K : m' <= Z.pos mb * 2 ^ K).
  { assert (0 < 2 ^ (eb + 1074)) as HW by (apply Z.pow_pos_nonneg; lia).
    assert (E : 2 ^ s * 2 ^ (eb + 1074) = 2 ^ (ea + 1074) * 2 ^ K).
    { rewrite <- !Z.pow_add_r by lia. f_equal. unfold s, K. lia. }
    apply (Z.mul_le_mono_pos_r _ _ (2 ^ (eb + 1074)) HW).
    rewrite Hm', <- Z.mul_assoc, E, Z.mul_assoc.
    rewrite <- (Z.mul_assoc (Z.pos mb)), (Z.mul_comm (2 ^ K)), Z.mul_assoc.
    apply Z.mul_le_mono_nonneg_r; lia. }
  assert (Hq0 : 0 <= q) by nia.
  assert (HqK : q <= 2 ^ K) by nia.
  assert (HqKr : q = 2 ^ K -> r = 0) by nia.
  assert (Hdq : d1 - d2 + s <= Zdigits2 q).
  { destruct (Z.le_gt_cases (d1 - d2 + s) 0) as [|Hpos].
    { pose proof (Zdigits2_nonneg q Hq0). lia. }
    assert (d1 - d2 + s - 1 + 1 <= Zdigits2 q); [|lia].
    apply Zdigits2_ge_pow; [lia|].
    assert (Z.pos mb * 2 ^ (d1 - d2 + s - 1) < m').
    { eapply Z.lt_le_trans.
      - apply Z.mul_lt_mono_pos_r; [apply Z.pow_pos_nonneg; lia|exact Hb2].
      - rewrite <- Z.pow_add_r by lia.
        replace (d2 + (d1 - d2 + s - 1)) with (d1 - 1 + s) by lia.
        rewrite Z.pow_add_r, Hm' by lia.
        apply Z.mul_le_mono_nonneg_r; lia. }
    assert (0 < 2 ^ (d1 - d2 + s - 1)) by (apply Z.pow_pos_nonneg; lia).
    nia. }
  assert (Hpre : e' <= fexp64 (Zdigits2 q + e')).
  { etrans; [|apply fexp64_mono with (a := d1 + ea - (d2 + eb))]; [lia|].
    unfold s in Hdq. lia. }
  change (xorb false false) with false.
  destruct (round_aux_spec false q e' (new_location (Z.pos mb) r) Hq0 Hpre)
    as (m2 & Hm2 & Hlt & _ & ->).
  set (e1 := fexp64 (Zdigits2 q + e')) in *.
  assert (Hdq' : Zdigits2 q <= K + 1).
  { destruct (Z.eq_dec q 0) as [->|]; [simpl; lia|].
    apply Zdigits2_le_pow; [lia|lia|].
    rewrite Z.pow_add_r by lia. lia. }
  assert (He1 : -1074 <= e1 <= -52) by (unfold e1, fexp64, K in *; lia).
  set (n := e1 - e') in *.
  assert (Hn : 0 <= n <= K ∧ - e1 = K - n) by (unfold n, K; lia).
  assert (HPn : 0 < 2 ^ n) by (apply Z.pow_pos_nonneg; lia).
  assert (HKn : 2 ^ K = 2 ^ n * 2 ^ (K - n)).
  { rewrite <- Z.pow_add_r by lia. f_equal. lia. }
  assert (0 <= q / 2 ^ n) by (by apply Z.div_pos).
  apply rounded_le_one; [done| |destruct Hm2 as [->|[-> _]]; lia].
  destruct Hn as [Hn ->].
  destruct Hm2 as [->|[-> Hinex]].
  - split; [done|]. apply Z.div_le_upper_bound; [done|]. by rewrite <- HKn.
  - split; [lia|].
    assert (q / 2 ^ n < 2 ^ (K - n)); [|lia].
    apply Z.div_lt_upper_bound; [done|]. rewrite <- HKn.
    destruct (Z.eq_dec q (2 ^ K)) as [Eq|]; [|lia].
    exfalso. destruct Hinex as [Hl|Hqm].
    + apply Hl, new_location_exact, HqKr, Eq.
    + apply Hqm. rewrite Eq, HKn, Z.mul_comm. apply Z.mod_mul. lia.
Qed.

Lemma in_unit_interval_zero s : in_unit_interval (S754_zero s).
Proof. unfold in_unit_interval. rewrite one_eq. by destruct s. Qed.

(** The quotient of a non-negative float by a positive one, or by
    infinity, that is at least as large. *)
Lemma div_bound G a b :
  fin_nonneg a -> ival a <= G -> above G b ->
  in_unit_interval (F64.div a b).
Proof.
  intros Ha HaG [->|[Hb HGb]].
  { destruct a as [sa| | |[] ma ea]; try done; apply in_unit_interval_zero. }
  destruct b as [| | |[] mb eb]; try done. destruct Hb as [Heb _].
  destruct a as [sa| | |[] ma ea]; try done; try apply in_unit_interval_zero.
  destruct Ha as [Hea _]. rewrite !ival_finite in *.
  apply div_finite_bound; lia.
Qed.

(** What numpy's [linalg.svd] promises of the singular values of one
    matrix: floats in decreasing order and not negative; here with a
    largest one that is not zero. *)
Definition spectrum_ok (s : vec3) : Prop :=
  Forall (λ c, F64.valid c = true ∧ F64.is_finite c = true) (coords s)
  ∧ F64.ltb F64.zero (cx s) = true
  ∧ F64.leb (cy s) (cx s) = true
  ∧ F64.leb (cz s) (cy s) = true
  ∧ F64.leb F64.zero (cz s) = true.

Lemma leb_fin_nonneg x y :
  F64.valid y = true -> F64.is_finite y = true ->
  fin_nonneg x -> F64.leb x y = true -> fin_nonneg y.
Proof.
  intros Hv Hf Hx Hle. apply valid_fin_nonneg; [done|done|].
  destruct x as [sx| | |[] mx ex], y as [sy| | |[] my ey]; done.
Qed.

Lemma alpha_of_unit_interval (s : vec3) :
  spectrum_ok s -> in_unit_interval (alpha_of s).
Proof.
  destruct s as [[s0 s1] s2]. unfold spectrum_ok, alpha_of, cx, cy, cz.
  cbn [fst snd coords].
  rewrite !Forall_cons.
  intros (([Hv0 Hf0] & [Hv1 Hf1] & [Hv2 Hf2] & _) & H0 & H10 & H21 & H2).
  assert (P0 : fin_pos s0).
  { destruct s0 as [| | |[] m0 e0]; try done.
    apply valid_finite_inv in Hv0. simpl. lia. }
  assert (N2 : fin_nonneg s2) by (by apply valid_fin_nonneg).
  assert (N1 : fin_nonneg s1) by (by apply (leb_fin_nonneg s2)).
  assert (L10 : ival s1 <= ival s0).
  { apply leb_ival; try done. by apply fin_pos_nonneg. }
  destruct (sub_bound s0 s1 Hv0 P0 N1 L10) as [Na La].
  apply (div_bound (ival s0)); [done|done|].
  unfold F64.sum. cbn [foldl].
  assert (F64.add F64.zero s0 = s0) as ->.
  { by destruct s0 as [| | |[] m0 e0]. }
  apply add_above; [|done]. apply add_above; [|done]. by apply above_self.
Qed.

Lemma nan_outside_unit_interval : ¬ in_unit_interval F64.nan.
Proof. by intros [? _]. Qed.

(** C4, as the code has it: on the k-nearest-neighbour path, once the
    query and the decomposition have answered, [make_dotprops] returns.
    Each row of [vect] is the first row of the [vh] that [np.linalg.svd]
    returned for that point: the code does not normalise it, so it has the
    norm the library gave it.  The confidence of a point is
    [(s0 - s1) / (s0 + s1 + s2)] in float64 arithmetic; it lies between 0
    and 1 whenever the singular values of the point are finite floats in
    decreasing order, none negative and the largest positive.  When the
    three singular values are zero it is NaN, which lies in no interval. *)
Theorem alpha_in_unit_interval (h : handler) (pr : properties) (a : ndarray)
  (k : Z) (ix : index_array) (ms : list mat3) (usv : list svd3) :
  shape_N3 a -> 0 < k ->
  h _ (CKDTreeQuery (cleaned a) (k_eff a k)) = Ok ix ->
  inertia_stack (cleaned a) ix = Ok ms ->
  h _ (LinalgSvd ms) = Ok usv ->
  ∃ dp alpha,
    run h (knn_dotprops pr a (Some k)) = Ok dp
    ∧ dp_alpha dp = Some alpha
    ∧ length (dp_vect dp) = length usv
    ∧ length alpha = length usv
    ∧ ∀ i r, usv !! i = Some r ->
        dp_vect dp !! i = Some (vect_of (svd_vh r))
        ∧ ∃ al, alpha !! i = Some al
            ∧ al = alpha_of (svd_s r)
            ∧ (spectrum_ok (svd_s r) -> in_unit_interval al)
            ∧ (zero3 (svd_s r) -> al = F64.nan ∧ ¬ in_unit_interval al).
Proof.
  intros Ha Hk Hq Hms Hsvd.
  eexists _, _. split; [by eapply knn_dotprops_run|].
  split; [done|]. simpl. rewrite !length_fmap. split; [done|]. split; [done|].
  intros i r Hr. rewrite !list_lookup_fmap, Hr. simpl. split; [done|].
  eexists. split; [done|]. split; [done|]. split.
  - apply alpha_of_unit_interval.
  - intros Hz. rewrite alpha_of_zeros by done.
    split; [done|apply nan_outside_unit_interval].
Qed.

Lemma alpha_in_unit_interval_witness :
  ∃ dp alpha al,
    run small_inputs (knn_dotprops no_properties twins_and_one (Some 2)) = Ok dp
    ∧ dp_alpha dp = Some alpha
    ∧ alpha !! 2%nat = Some al
    ∧ in_unit_interval al.
Proof.
  edestruct (alpha_in_unit_interval small_inputs no_properties twins_and_one 2)
    as (dp & alpha & Hrun & Halpha & _ & _ & Hall);
    [by vm_compute|done|vm_compute; reflexivity|vm_compute; reflexivity
    |vm_compute; reflexivity|].
  edestruct (Hall 2%nat) as (_ & al & Hal & _ & Hin & _);
    [vm_compute; reflexivity|].
  exists dp, alpha, al. split; [exact Hrun|]. split; [exact Halpha|].
  split; [exact Hal|]. apply Hin. vm_compute. repeat constructor.
Defined.

(** Three points, two of them coincident, with [k = 2]: the confidences of
    the coincident points are NaN, which is not between 0 and 1. *)
Lemma alpha_outside_unit_interval :
  ∃ dp, run small_inputs (make_dotprops (SArray twins_and_one) (Some 2) RNone)
        = Ok (OneDotprops dp)
        ∧ 1 <= 2 <= Z.of_nat (length (dp_points dp))
        ∧ dp_alpha dp = Some [F64.nan; F64.nan; F64.one]
        ∧ ¬ in_unit_interval F64.nan.
Proof.
  eexists. split; [vm_compute; reflexivity|]. split; [by vm_compute|].
  split; [vm_compute; reflexivity|apply nan_outside_unit_interval].
Qed.

(** * Further properties of [make_dotprops] *)

(** ** Collections of neurons *)

Lemma run_foreach {A B} (h : handler) (f : A -> prog B) (l : list A) :
  run h (foreach f l) = mapM (λ a, run h (f a)) l.
Proof.
  induction l as [|a l IH]; simpl; [done|].
  rewrite run_bind. destruct (run h (f a)) as [b|e]; simpl; [|done].
  rewrite run_bind, IH. by destruct (mapM _ l).
Qed.

(** A list of neurons gives the list of the results of its members, in
    order: it is returned exactly when [resample] has an allowed type and
    every member gives a result. *)
Theorem neuron_list_results (h : handler) (l : list source) (k : option Z)
  (r : resample_arg) (res : dotprops_result) :
  run h (make_dotprops (SNeuronList l) k r) = Ok res
  <-> eval_param_resample r = Ok ()
      ∧ ∃ ds, res = ManyDotprops ds
              ∧ Forall2 (λ n d, run h (make_dotprops n k r) = Ok d) l ds.
Proof.
  rewrite make_dotprops_list, run_lift_bind. split.
  - intros ([] & Hr & Hrun)%result_bind_Ok. split; [done|].
    rewrite run_bind, run_foreach in Hrun.
    apply result_bind_Ok in Hrun as (ds & Hds%mapM_result_Ok & [= <-]).
    by exists ds.
  - intros (-> & ds & -> & Hds%mapM_result_Ok).
    by rewrite result_bind_ok_l, run_bind, run_foreach, Hds.
Qed.

(** The first member that fails makes the whole list fail with its
    exception: no result is kept for the members before it. *)
Theorem neuron_list_first_failure (h : handler) (l1 l2 : list source)
  (n : source) (k : option Z) (r : resample_arg) (e : exn) :
  eval_param_resample r = Ok () ->
  Forall (λ m, ∃ d, run h (make_dotprops m k r) = Ok d) l1 ->
  run h (make_dotprops n k r) = Err e ->
  run h (make_dotprops (SNeuronList (l1 ++ n :: l2)) k r) = Err e.
Proof.
  intros Hr Hl1 Hn.
  rewrite make_dotprops_list, run_lift_bind, Hr, result_bind_ok_l.
  rewrite run_bind, run_foreach.
  induction Hl1 as [|m l1 [d Hd] _ IH]; simpl.
  - by rewrite Hn.
  - rewrite Hd. simpl.
    destruct (mapM _ (l1 ++ n :: l2)) as [ds|e'] eqn:E; simpl in *; [done|].
    by injection IH as ->.
Qed.

Lemma neuron_list_first_failure_witness :
  ∃ e, run small_inputs
           (make_dotprops (SNeuronList [SArray twins; SOther "str"; SArray twins])
                          (Some 2) RNone) = Err e.
Proof.
  eexists.
  apply (neuron_list_first_failure small_inputs [SArray twins] [SArray twins]
           (SOther "str") (Some 2) RNone).
  - reflexivity.
  - constructor; [|constructor]. eexists. vm_compute. reflexivity.
  - reflexivity.
Defined.

(** ** Tables, arrays and neurons as coordinate arrays *)

Lemma rows3_of_rows3 (l : list vec3) : rows3 (data (of_rows3 l)) = l.
Proof.
  simpl. induction l as [|[[a b] c] l IH]; [done|].
  simpl. f_equal. apply IH.
Qed.

Lemma shape_of_rows3 (l : list vec3) : shape_N3 (of_rows3 l).
Proof. done. Qed.

Lemma cleaned_of_rows3 (l : list vec3) : cleaned (of_rows3 l) = dropna l.
Proof. unfold cleaned. f_equal. apply rows3_of_rows3. Qed.

Lemma dropna_clean (l : list vec3) :
  Forall (λ p, row_has_nan p = false) l -> dropna l = l.
Proof.
  intros H. unfold dropna. induction H as [|p l Hp _ IH]; [done|].
  rewrite filter_cons_True by done. by rewrite IH.
Qed.

Lemma bind_seq_shift {A} (f : nat -> list A) (n : nat) :
  seq 1 n ≫= f = seq 0 n ≫= (λ i, f (S i)).
Proof.
  rewrite <- fmap_S_seq. generalize (seq 0 n). intros l.
  induction l as [|i l IH]; [done|]. simpl.
  change (f (S i) ++ ((S <$> l) ≫= f) = f (S i) ++ (l ≫= λ i, f (S i))).
  by rewrite IH.
Qed.

Lemma table_rows (xs ys zs : list f64) :
  length ys = length xs -> length zs = length xs ->
  seq 0 (length xs)
    ≫= (λ r, (λ c : list f64, default F64.nan (c !! r)) <$> [xs; ys; zs])
  = zip (zip xs ys) zs ≫= λ '(a, b, c), [a; b; c].
Proof.
  revert ys zs. induction xs as [|x xs IH]; intros ys zs Hy Hz; [done|].
  destruct ys as [|y ys], zs as [|z zs]; try done.
  simpl in Hy, Hz. simpl length. rewrite <- cons_seq.
  rewrite bind_cons, bind_seq_shift.
  change (zip (zip (x :: xs) (y :: ys)) (z :: zs))
    with ((x, y, z) :: zip (zip xs ys) zs).
  rewrite bind_cons, <- (IH ys zs) by lia. reflexivity.
Qed.

(** The coordinate array of a table that has one column for each of
    ["x"], ["y"] and ["z"], all as long as the table: its rows are the
    triples of the three columns, whatever other columns there are. *)
Lemma df_xyz_rows (df : DataFrame) (xs ys zs : list f64) :
  filter (λ c, c.1 = "x") (df_columns df) = [("x", xs)] ->
  filter (λ c, c.1 = "y") (df_columns df) = [("y", ys)] ->
  filter (λ c, c.1 = "z") (df_columns df) = [("z", zs)] ->
  length xs = df_nrows df -> length ys = df_nrows df ->
  length zs = df_nrows df ->
  df_xyz df = of_rows3 (zip (zip xs ys) zs).
Proof.
  intros Hx Hy Hz Lx Ly Lz. unfold df_xyz, of_rows3. simpl.
  rewrite Hx, Hy, Hz. simpl. f_equal.
  - rewrite !length_zip_with. do 2 f_equal. lia.
  - rewrite <- Lx. apply table_rows; lia.
Qed.

Lemma has_column_filter (df : DataFrame) (name : string) (col : list f64) :
  filter (λ c, c.1 = name) (df_columns df) = [(name, col)] ->
  has_column df name = true.
Proof.
  intros H. unfold has_column. apply bool_decide_eq_true.
  apply list_elem_of_fmap. exists (name, col). split; [done|].
  assert (Hin : (name, col) ∈ filter (λ c, c.1 = name) (df_columns df))
    by (rewrite H; left).
  by apply (list_elem_of_filter (λ c : string * list f64, c.1 = name)) in Hin as [_ ?].
Qed.

(** A table with one ["x"], one ["y"] and one ["z"] column is handled as
    the array of its rows: the same calls to the libraries, and the same
    result or exception. *)
Theorem table_as_array (df : DataFrame) (xs ys zs : list f64)
  (k : option Z) (r : resample_arg) :
  filter (λ c, c.1 = "x") (df_columns df) = [("x", xs)] ->
  filter (λ c, c.1 = "y") (df_columns df) = [("y", ys)] ->
  filter (λ c, c.1 = "z") (df_columns df) = [("z", zs)] ->
  length xs = df_nrows df -> length ys = df_nrows df ->
  length zs = df_nrows df ->
  make_dotprops (SDataFrame df) k r
  = make_dotprops (SArray (of_rows3 (zip (zip xs ys) zs))) k r.
Proof.
  intros Hx Hy Hz Lx Ly Lz.
  rewrite make_dotprops_dataframe, make_dotprops_array.
  rewrite (df_xyz_rows df xs ys zs) by done.
  simpl forallb.
  by rewrite (has_column_filter df "x" xs), (has_column_filter df "y" ys),
    (has_column_filter df "z" zs).
Qed.

Definition small_table : DataFrame :=
  MkDataFrame 2 [("z", [F64.of_Z 3; F64.of_Z 6]); ("radius", [F64.one; F64.one]);
                 ("x", [F64.of_Z 1; F64.of_Z 4]); ("y", [F64.of_Z 2; F64.of_Z 5])].

Lemma table_as_array_witness :
  make_dotprops (SDataFrame small_table) (Some 2) RNone
  = make_dotprops (SArray (of_rows3 [pt 1 2 3; pt 4 5 6])) (Some 2) RNone.
Proof.
  apply (table_as_array small_table [F64.of_Z 1; F64.of_Z 4]
           [F64.of_Z 2; F64.of_Z 5] [F64.of_Z 3; F64.of_Z 6]); reflexivity.
Defined.

(** A table that lacks one of the three columns is refused with a
    [ValueError] before its [k] is looked at and before any library is
    called. *)
Theorem table_missing_column (df : DataFrame) (k : option Z) (r : resample_arg)
  (name : string) :
  eval_param_resample r = Ok () ->
  name ∈ ["x"; "y"; "z"] -> name ∉ (df_columns df).*1 ->
  make_dotprops (SDataFrame df) k r
  = Raise (ValueError "DataFrame must contain x, y and z columns.").
Proof.
  intros Hr Hname Hmiss. rewrite make_dotprops_dataframe, Hr. simpl.
  assert (has_column df name = false) as Hc
    by (by apply bool_decide_eq_false).
  repeat (apply elem_of_cons in Hname as [->|Hname]; [by rewrite Hc, ?andb_false_r|]).
  by apply elem_of_nil in Hname.
Qed.

Lemma table_missing_column_witness :
  make_dotprops (SDataFrame (MkDataFrame 1 [("x", [F64.one]); ("y", [F64.one])]))
                None RNone
  = Raise (ValueError "DataFrame must contain x, y and z columns.").
Proof.
  apply (table_missing_column _ None RNone "z"); [reflexivity| |].
  - do 2 right. left.
  - simpl. intros H.
    repeat (apply elem_of_cons in H as [?|H]; [done|]).
    by apply elem_of_nil in H.
Defined.

(** ** What the returned [Dotprops] carries *)

(** A tree neuron with a positive [k] takes the k-nearest-neighbour path
    on the nodes of the neuron as it is after resampling: the points are
    those nodes without the rows that have a NaN, the units, name and id
    are those of the resampled neuron, and [k] is the smaller of the
    requested [k] and the number of points. *)
Theorem tree_with_k (h : handler) (n : TreeNeuron) (k : Z) (r : resample_arg)
  (res : dotprops_result) :
  0 < k ->
  run h (make_dotprops (STreeNeuron n) (Some k) r) = Ok res ->
  ∃ x dp alpha,
    run h (resampled n r) = Ok x
    ∧ res = OneDotprops dp
    ∧ dp_points dp = dropna (tn_nodes x)
    ∧ dp_alpha dp = Some alpha ∧ dp_length dp = None
    ∧ dp_k dp = Some (Z.min (Z.of_nat (length (dp_points dp))) k)
    ∧ dp_units dp = Some (tn_units x)
    ∧ dp_name dp = Some (tn_name x)
    ∧ dp_id dp = Some (tn_id x).
Proof.
  intros Hk. rewrite make_dotprops_tree, run_lift_bind.
  intros (_ & _ & Hrun)%result_bind_Ok.
  rewrite run_bind in Hrun. apply result_bind_Ok in Hrun as (x & Hx & Hrun).
  replace (k_unset (Some k)) with false in Hrun
    by (symmetry; apply k_unset_false; eauto).
  rewrite run_fmap in Hrun. apply result_bind_Ok in Hrun as (dp & Hdp & [= <-]).
  apply knn_dotprops_inv in Hdp
    as (k0 & ix & ms & usv & [= <-] & _ & _ & _ & _ & _ & ->).
  eexists x, _, _. split; [done|]. split; [done|].
  unfold knn_result, k_eff. simpl. by rewrite cleaned_of_rows3.
Qed.

Lemma tree_with_k_witness :
  ∃ res x dp,
    run small_inputs (make_dotprops (STreeNeuron three_nodes) (Some 2) RNone)
    = Ok res
    ∧ res = OneDotprops dp
    ∧ run small_inputs (resampled three_nodes RNone) = Ok x
    ∧ dp_points dp = dropna (tn_nodes x)
    ∧ dp_name dp = Some (tn_name x).
Proof.
  eexists.
  edestruct (tree_with_k small_inputs three_nodes 2 RNone)
    as (x & dp & alpha & Hx & Hdp & Hp & _ & _ & _ & _ & Hn & _);
    [done|vm_compute; reflexivity|].
  exists x, dp. split; [vm_compute; reflexivity|]. by repeat split.
Defined.

(** The units, name and id of a [Dotprops] made from a mesh are those of
    the mesh; one made from a table or an array has none.  Neither has
    lengths, and both have confidences. *)
Theorem unstructured_metadata (h : handler) (src : source) (k : option Z)
  (r : resample_arg) (res : dotprops_result) :
  unstructured src ->
  run h (make_dotprops src k r) = Ok res ->
  ∃ dp alpha,
    res = OneDotprops dp
    ∧ dp_alpha dp = Some alpha ∧ dp_length dp = None
    ∧ (dp_units dp, dp_name dp, dp_id dp)
      = match src with
        | SMeshNeuron n => (Some (mn_units n), Some (mn_name n), Some (mn_id n))
        | _ => (None, None, None)
        end.
Proof.
  assert (Hknn : ∀ pr a, run h (OneDotprops <$> knn_dotprops pr a k) = Ok res ->
    ∃ dp alpha, res = OneDotprops dp ∧ dp_alpha dp = Some alpha
      ∧ dp_length dp = None
      ∧ (dp_units dp, dp_name dp, dp_id dp) = (pr_units pr, pr_name pr, pr_id pr)).
  { intros pr a. rewrite run_fmap. intros (dp & Hdp & [= <-])%result_bind_Ok.
    apply knn_dotprops_inv in Hdp
      as (k0 & ix & ms & usv & _ & _ & _ & _ & _ & _ & ->).
    by eexists _, _. }
  destruct src as [l|df|n|n|a|t]; try done; intros _.
  - rewrite make_dotprops_dataframe, run_lift_bind.
    intros (_ & _ & Hrun)%result_bind_Ok.
    destruct (forallb _ _); [|done]. by apply Hknn in Hrun.
  - rewrite make_dotprops_mesh, run_lift_bind.
    intros (_ & _ & Hrun)%result_bind_Ok.
    rewrite run_bind in Hrun. apply result_bind_Ok in Hrun as (x & _ & Hrun).
    by apply Hknn in Hrun.
  - rewrite make_dotprops_array, run_lift_bind.
    intros (_ & _ & Hrun)%result_bind_Ok. by apply Hknn in Hrun.
Qed.

Definition two_vertices : MeshNeuron :=
  MkMeshNeuron (Pint false (F64.of_Z 8) "nanometer" false) "mesh" 7 twins.

Lemma unstructured_metadata_witness :
  ∃ res dp,
    run small_inputs (make_dotprops (SMeshNeuron two_vertices) (Some 2) RNone)
    = Ok res
    ∧ res = OneDotprops dp
    ∧ (dp_units dp, dp_name dp, dp_id dp)
      = (Some (mn_units two_vertices), Some (mn_name two_vertices),
         Some (mn_id two_vertices)).
Proof.
  eexists.
  edestruct (unstructured_metadata small_inputs (SMeshNeuron two_vertices)
               (Some 2) RNone)
    as (dp & alpha & Hdp & _ & _ & Hm); [exact I|vm_compute; reflexivity|].
  exists dp. split; [vm_compute; reflexivity|]. by split.
Defined.

(** The number of rows of the index array of a query. *)
Definition ix_rows (ix : index_array) : nat :=
  match ix with Ix1 l => length l | Ix2 rows => length rows end.

Lemma mapM_result_length {A B} (f : A -> result B) (l : list A) (l' : list B) :
  mapM f l = Ok l' -> length l' = length l.
Proof. intros H%mapM_result_Ok. symmetry. by eapply Forall2_length. Qed.

Lemma inertia_stack_length x ix ms :
  inertia_stack x ix = Ok ms -> length ms = ix_rows ix.
Proof.
  destruct ix as [idx|rows]; simpl.
  - intros (pt & Hpt%mapM_result_length & Hms)%result_bind_Ok.
    destruct (bool_decide _) eqn:E; [|done]. injection Hms as <-.
    apply bool_decide_eq_true in E. simpl. lia.
  - intros (pt & Hpt%mapM_result_length & [= <-])%result_bind_Ok.
    by rewrite length_fmap.
Qed.

(** The vectors and the confidences of a [Dotprops] of the
    k-nearest-neighbour path are equally many; they are as many as the
    points when the query answers one row of indices for each point and
    the decomposition one triple for each matrix. *)
Theorem parallel_sequences (h : handler) (pr : properties) (a : ndarray)
  (k : option Z) (dp : Dotprops) :
  run h (knn_dotprops pr a k) = Ok dp ->
  ∃ alpha,
    dp_alpha dp = Some alpha
    ∧ length (dp_vect dp) = length alpha
    ∧ ((∀ x n ix, h _ (CKDTreeQuery x n) = Ok ix -> ix_rows ix = length x) ->
       (∀ ms usv, h _ (LinalgSvd ms) = Ok usv -> length usv = length ms) ->
       length (dp_points dp) = length alpha).
Proof.
  intros (k0 & ix & ms & usv & _ & _ & _ & Hq & Hms & Hsvd & ->)%knn_dotprops_inv.
  eexists. split; [done|]. simpl. rewrite !length_fmap. split; [done|].
  intros Hrows Hstack.
  by rewrite (Hstack _ _ Hsvd), (inertia_stack_length _ _ _ Hms), (Hrows _ _ _ Hq).
Qed.

Lemma parallel_sequences_witness :
  ∃ dp alpha,
    run small_inputs (knn_dotprops no_properties twins_and_one (Some 2)) = Ok dp
    ∧ dp_alpha dp = Some alpha
    ∧ length (dp_vect dp) = length alpha.
Proof.
  eexists.
  edestruct (parallel_sequences small_inputs no_properties twins_and_one (Some 2))
    as (alpha & Ha & Hl & _); [vm_compute; reflexivity|].
  exists alpha. split; [vm_compute; reflexivity|]. by split.
Defined.

(** When the query answers a one-dimensional index array, as scipy does
    for [k = 1], that names at least one point, [make_dotprops] raises the
    [ValueError] of [reshape]; nothing is decomposed. *)
Theorem squeezed_answer_raises (h : handler) (pr : properties) (a : ndarray)
  (k : Z) (idx : list nat) :
  shape_N3 a -> 0 < k ->
  h _ (CKDTreeQuery (cleaned a) (k_eff a k)) = Ok (Ix1 idx) ->
  idx ≠ [] ->
  Forall (λ i, (i < length (cleaned a))%nat) idx ->
  run h (knn_dotprops pr a (Some k))
  = Err (ValueError "cannot reshape array into shape (N, 1, 3)").
Proof.
  intros Ha Hk Hq Hne Hidx. rewrite knn_dotprops_valid by done.
  rewrite run_perform_bind, Hq, result_bind_ok_l, run_lift_bind.
  assert (∃ pt, take_rows (cleaned a) idx = Ok pt ∧ length pt = length idx)
    as (pt & Hpt & Hlen).
  { assert (∃ pt, take_rows (cleaned a) idx = Ok pt) as [pt Hpt].
    { unfold take_rows. clear Hq Hne. induction Hidx as [|i idx Hi _ [pt IH]].
      - by eexists.
      - destruct (lookup_lt_is_Some_2 _ _ Hi) as [p Hp].
        exists (p :: pt). simpl. by rewrite Hp, result_bind_ok_l, IH. }
    exists pt. split; [done|]. by eapply mapM_result_length. }
  simpl. rewrite Hpt, result_bind_ok_l.
  rewrite bool_decide_eq_false_2; [done|].
  rewrite Hlen. by destruct idx.
Qed.

Lemma squeezed_answer_raises_witness :
  run small_inputs (knn_dotprops no_properties twins_and_one (Some 1))
  = Err (ValueError "cannot reshape array into shape (N, 1, 3)").
Proof.
  apply (squeezed_answer_raises small_inputs no_properties twins_and_one 1
           [0; 0; 2]%nat).
  - done.
  - done.
  - vm_compute. reflexivity.
  - done.
  - vm_compute. repeat constructor.
Defined.

(** The rows of an array without NaN come back as the points, all of
    them and in their order. *)
Theorem clean_rows_kept (h : handler) (l : list vec3) (k : option Z)
  (r : resample_arg) (res : dotprops_result) :
  Forall (λ p, row_has_nan p = false) l ->
  run h (make_dotprops (SArray (of_rows3 l)) k r) = Ok res ->
  ∃ dp, res = OneDotprops dp ∧ dp_points dp = l.
Proof.
  intros Hl. rewrite make_dotprops_array, run_lift_bind.
  intros (_ & _ & Hrun)%result_bind_Ok.
  rewrite run_fmap in Hrun. apply result_bind_Ok in Hrun as (dp & Hdp & [= <-]).
  apply knn_dotprops_inv in Hdp
    as (k0 & ix & ms & usv & _ & _ & _ & _ & _ & _ & ->).
  eexists. split; [done|]. simpl.
  by rewrite cleaned_of_rows3, dropna_clean.
Qed.

Lemma clean_rows_kept_witness :
  ∃ res dp,
    run small_inputs
        (make_dotprops (SArray (of_rows3 [pt 0 0 0; pt 0 0 0; pt 2 0 0]))
                       (Some 2) RNone) = Ok res
    ∧ res = OneDotprops dp
    ∧ dp_points dp = [pt 0 0 0; pt 0 0 0; pt 2 0 0].
Proof.
  eexists.
  edestruct (clean_rows_kept small_inputs [pt 0 0 0; pt 0 0 0; pt 2 0 0]
               (Some 2) RNone) as (dp & Hdp & Hp);
    [by repeat constructor|vm_compute; reflexivity|].
  exists dp. split; [vm_compute; reflexivity|]. by split.
Defined.

(** An array that is not two-dimensional with three columns is refused
    with the [ValueError] of the shape check, before [k] is looked at and
    without a call to any library. *)
Theorem bad_shape_rejected (a : ndarray) (k : option Z) (r : resample_arg) :
  eval_param_resample r = Ok () -> ¬ shape_N3 a ->
  make_dotprops (SArray a) k r
  = Raise (ValueError "Expected input of shape (N, 3)").
Proof.
  intros Hr Ha. rewrite make_dotprops_array, Hr. simpl.
  unfold knn_dotprops.
  destruct (decide (ndim a = 2%nat)) as [Hd|Hd];
    [rewrite (bool_decide_eq_true_2 _ Hd)|by rewrite (bool_decide_eq_false_2 _ Hd)].
  destruct (decide (shape a !! 1%nat = Some 3%nat)) as [Hs|Hs];
    [by destruct Ha|by rewrite (bool_decide_eq_false_2 _ Hs)].
Qed.

Lemma bad_shape_rejected_witness :
  make_dotprops (SArray (Ndarray [3%nat] [F64.one; F64.one; F64.one])) None RNone
  = Raise (ValueError "Expected input of shape (N, 3)").
Proof.
  apply bad_shape_rejected; [reflexivity|]. by intros [? _].
Defined.

(** * Further properties of [to_neuron_space] *)

Lemma eval_param_on_error_ok (on_error : string) :
  on_error ∈ ["ignore"; "raise"] -> eval_param_on_error on_error = Ok ().
Proof. intros H. unfold eval_param_on_error. by rewrite bool_decide_eq_true_2. Qed.

Lemma to_neuron_space_valid (units : units_arg) (nunits : pint_obj)
  (on_error : string) :
  on_error ∈ ["ignore"; "raise"] ->
  to_neuron_space units (ANeuron nunits) on_error
  = match units with
    | UStr s => q ← perform (PintQuantity s); to_units_of nunits q on_error
    | UPint q => to_units_of nunits q on_error
    | UNum v => Ret (UNum v)
    end.
Proof.
  intros H. unfold to_neuron_space. by rewrite eval_param_on_error_ok.
Qed.

(** A plain number is returned as it is, without a call to pint, also
    against a neuron whose units are dimensionless and with
    [on_error = "raise"]. *)
Theorem number_passes_through (v : f64) (nunits : pint_obj) (on_error : string) :
  on_error ∈ ["ignore"; "raise"] ->
  to_neuron_space (UNum v) (ANeuron nunits) on_error = Ret (UNum v).
Proof.
  intros H. unfold to_neuron_space. by rewrite eval_param_on_error_ok.
Qed.

Lemma number_passes_through_witness :
  to_neuron_space (UNum F64.one)
                  (ANeuron (Pint false F64.one "dimensionless" true)) "raise"
  = Ret (UNum F64.one).
Proof. apply number_passes_through. right. left. Defined.

(** A dimensionless quantity, against a neuron that has units, gives its
    magnitude: it is neither converted nor rounded. *)
Theorem dimensionless_quantity_magnitude (q nunits : pint_obj)
  (on_error : string) :
  on_error ∈ ["ignore"; "raise"] ->
  pint_dimensionless nunits = false ->
  pint_dimensionless q = true ->
  pint_is_unit q = false ->
  to_neuron_space (UPint q) (ANeuron nunits) on_error
  = Ret (UNum (pint_magnitude q)).
Proof.
  intros H Hn Hq Hu. unfold to_neuron_space.
  rewrite eval_param_on_error_ok by done. simpl.
  unfold to_units_of, magnitude. by rewrite Hn, Hq, Hu.
Qed.

Lemma dimensionless_quantity_magnitude_witness :
  to_neuron_space (UPint (Pint false (F64.of_Z 3) "" true))
                  (ANeuron (Pint false (F64.of_Z 8) "nanometer" false)) "raise"
  = Ret (UNum (F64.of_Z 3)).
Proof.
  apply (dimensionless_quantity_magnitude (Pint false (F64.of_Z 3) "" true));
    [right; left|done..].
Defined.

(** [on_error] only decides what happens against a neuron whose units
    are dimensionless: against a neuron that has units, ["ignore"] and
    ["raise"] give the same result or the same exception. *)
Theorem on_error_without_effect (h : handler) (units : units_arg)
  (nunits : pint_obj) :
  pint_dimensionless nunits = false ->
  run h (to_neuron_space units (ANeuron nunits) "ignore")
  = run h (to_neuron_space units (ANeuron nunits) "raise").
Proof.
  intros Hn.
  assert (H : ∀ q, to_units_of nunits q "ignore" = to_units_of nunits q "raise")
    by (intros q; unfold to_units_of; by rewrite Hn).
  rewrite !to_neuron_space_valid by (by repeat constructor).
  destruct units as [s|q|v]; [|by rewrite H|done].
  rewrite !run_perform_bind. destruct (h _ (PintQuantity s)) as [q|e]; [|done].
  by rewrite !result_bind_ok_l, H.
Qed.

(** So an exception of pint's conversion is not caught with
    [on_error = "ignore"]. *)
Theorem conversion_failure_not_ignored (h : handler) (q nunits : pint_obj)
  (e : exn) :
  pint_dimensionless nunits = false ->
  pint_dimensionless q = false ->
  h _ (PintTo q nunits) = Err e ->
  run h (to_neuron_space (UPint q) (ANeuron nunits) "ignore") = Err e.
Proof.
  intros Hn Hq He. rewrite to_neuron_space_valid by (by repeat constructor).
  unfold to_units_of. rewrite Hn, Hq. by rewrite run_perform_bind, He.
Qed.

Lemma on_error_without_effect_witness :
  run small_inputs
      (to_neuron_space (UPint (Pint false F64.one "second" false))
         (ANeuron (Pint false (F64.of_Z 8) "nanometer" false)) "ignore")
  = run small_inputs
      (to_neuron_space (UPint (Pint false F64.one "second" false))
         (ANeuron (Pint false (F64.of_Z 8) "nanometer" false)) "raise").
Proof. by apply on_error_without_effect. Defined.

Lemma conversion_failure_not_ignored_witness :
  run small_inputs
      (to_neuron_space (UPint (Pint false F64.one "second" false))
         (ANeuron (Pint false (F64.of_Z 8) "nanometer" false)) "ignore")
  = Err (LibError "NotImplementedError" "pint to").
Proof. by apply conversion_failure_not_ignored. Defined.

(** * Further properties of [NeuronProcessor] *)

(** ** The constructor *)

(** A processor that [__init__] returns has one function for each
    neuron, and [function] is the first of them. *)
Theorem init_functions (nl : list value) (function : function_arg)
  (parallel : bool) (n_cores chunksize : value) (warn_inplace : bool)
  (p : NeuronProcessor) :
  init nl function parallel n_cores chunksize warn_inplace = Ok p ->
  np_nl p = nl
  ∧ length (np_funcs p) = length nl
  ∧ (nl ≠ [] -> np_funcs p !! 0%nat = Some (np_function p)).
Proof.
  unfold init. destruct function as [f|fs|t]; [| |done].
  - intros [= <-]. simpl. rewrite length_replicate. split_and!; try done.
    by destruct nl.
  - destruct (decide (length fs = length nl)) as [Hl|Hl];
      [rewrite (bool_decide_eq_true_2 _ Hl)|by rewrite (bool_decide_eq_false_2 _ Hl)].
    simpl. destruct fs as [|f fs]; [done|]. by intros [= <-].
Qed.

Lemma init_functions_witness :
  ∃ p, init three_neurons (FCallable first_arg) false (VInt 2) (VInt 1) true = Ok p
       ∧ length (np_funcs p) = 3%nat.
Proof.
  eexists. split; [reflexivity|].
  by apply (init_functions three_neurons (FCallable first_arg) false (VInt 2)
              (VInt 1) true).
Defined.

(** [__init__] fails in three cases only: [function] is neither callable
    nor a list, a list of functions is not as long as the list of
    neurons, or both lists are empty, where [function[0]] does not
    exist. *)
Theorem init_failures (nl : list value) (function : function_arg)
  (parallel : bool) (n_cores chunksize : value) (warn_inplace : bool) (e : exn) :
  init nl function parallel n_cores chunksize warn_inplace = Err e
  <-> (∃ t, function = FOther t
            ∧ e = TypeError "Expected `function` to be callable or list thereof")
      ∨ (∃ fs, function = FList fs ∧ length fs ≠ length nl
               ∧ e = ValueError "Number of functions must match neurons.")
      ∨ (function = FList [] ∧ nl = []
         ∧ e = IndexError "list index out of range").
Proof.
  unfold init. destruct function as [f|fs|t].
  - split; [done|]. by intros [(? & ? & _)|[(? & ? & _)|(? & _)]].
  - destruct (decide (length fs = length nl)) as [Hl|Hl];
      [rewrite (bool_decide_eq_true_2 _ Hl)|rewrite (bool_decide_eq_false_2 _ Hl)];
      simpl.
    + destruct fs as [|f fs].
      * split.
        -- intros [= <-]. right. right. by destruct nl.
        -- intros [(? & ? & _)|[(? & [= <-] & ? & _)|(_ & _ & ->)]]; done.
      * split; [done|].
        intros [(? & ? & _)|[(? & [= <-] & ? & _)|(? & _)]]; done.
    + split.
      * intros [= <-]. right. left. by exists fs.
      * intros [(? & ? & _)|[(? & _ & _ & ->)|([= ->] & -> & _)]]; done.
  - split.
    + intros [= <-]. left. by exists t.
    + intros [(? & _ & ->)|[(? & ? & _)|(? & _)]]; done.
Qed.

(** ** The two modes *)

Lemma apply_each_pure (f : pyfunc) (g : list value -> gmap string value -> result value)
  (work : list (list value * gmap string value)) (lg : logger) :
  (∀ a kw lg0, f a kw lg0 = (g a kw, lg0)) ->
  apply_each f work lg = (mapM (λ x, g (x.1) (x.2)) work, lg).
Proof.
  intros Hf. induction work as [|[a kw] work IH]; simpl; [done|].
  rewrite Hf, IH. simpl. destruct (g a kw); simpl; [|done].
  by destruct (mapM _ work).
Qed.

Lemma mapM_result_ext {A B} (f g : A -> result B) (l : list A) :
  (∀ x, f x = g x) -> mapM f l = mapM g l.
Proof. intros H. induction l as [|x l IH]; simpl; [done|]. by rewrite H, IH. Qed.

Lemma zip_replicate_l {A B} (n : nat) (x : A) (l : list B) :
  length l = n -> zip (replicate n x) l = (λ y, (x, y)) <$> l.
Proof.
  intros <-. induction l as [|y l IH]; simpl; [done|]. by rewrite IH.
Qed.

Lemma pool_imap_one_function (f : pyfunc) (n : nat)
  (pa : list (list value)) (pk : list (gmap string value)) (lg : logger) :
  length pa = n ->
  pool_imap (zip (zip (replicate n f) pa) pk) lg
  = mapM (λ x, (f (x.1) (x.2) lg).1) (zip pa pk).
Proof.
  intros Hn. unfold pool_imap. rewrite zip_replicate_l by done. clear Hn.
  revert pk. induction pa as [|a pa IH]; intros pk; [done|].
  destruct pk as [|kw pk]; [done|]. simpl. by rewrite IH.
Qed.

(** With one callable that leaves the logger alone, the parallel mode
    returns what the sequential mode returns: the same results in the
    order of the neurons, or the exception of the first neuron that
    fails. *)
Theorem parallel_matches_sequential (nl : list value) (f : pyfunc)
  (g : list value -> gmap string value -> result value)
  (n_cores chunksize : value) (warn_inplace : bool)
  (args : list value) (kwargs : gmap string value) (lg : logger)
  (p_seq p_par : NeuronProcessor) :
  (∀ a kw lg0, f a kw lg0 = (g a kw, lg0)) ->
  kwargs !! "parallel" = None ->
  init nl (FCallable f) false n_cores chunksize warn_inplace = Ok p_seq ->
  init nl (FCallable f) true n_cores chunksize warn_inplace = Ok p_par ->
  (call_ p_par true args kwargs lg).1 = (call_ p_seq true args kwargs lg).1.
Proof.
  intros Hf Hk [= <-] [= <-]. unfold call_. rewrite Hk. simpl.
  rewrite pool_imap_one_function by apply length_parsed_args.
  rewrite (apply_each_pure f g) by done.
  rewrite (mapM_result_ext _ (λ x, g (x.1) (x.2))) by (intros x; by rewrite Hf).
  by destruct (mapM _ _).
Qed.

Lemma parallel_matches_sequential_witness :
  (call_ (MkNeuronProcessor three_neurons (replicate 3 first_arg) first_arg
            true (VInt 2) (VInt 1) true)
         true [VNeuronList three_neurons] ∅ info_logger).1
  = (call_ (MkNeuronProcessor three_neurons (replicate 3 first_arg) first_arg
              false (VInt 2) (VInt 1) true)
           true [VNeuronList three_neurons] ∅ info_logger).1.
Proof.
  by apply (parallel_matches_sequential three_neurons first_arg
              (λ args _, Ok (default VNone (args !! 0%nat))) (VInt 2) (VInt 1) true).
Defined.

(** In sequential mode, a processor made from a list of functions calls
    the first of them for every neuron: it does what the processor made
    from that function alone does. *)
Theorem sequential_calls_first_function (nl : list value) (f : pyfunc)
  (fs : list pyfunc) (n_cores chunksize : value) (warn_inplace pool : bool)
  (args : list value) (kwargs : gmap string value) (lg : logger)
  (p_list p_one : NeuronProcessor) :
  init nl (FList (f :: fs)) false n_cores chunksize warn_inplace = Ok p_list ->
  init nl (FCallable f) false n_cores chunksize warn_inplace = Ok p_one ->
  from_option value_truthy false (kwargs !! "parallel") = false ->
  call_ p_list pool args kwargs lg = call_ p_one pool args kwargs lg.
Proof.
  unfold init. destruct (bool_decide _); [|done]. simpl.
  intros [= <-] [= <-] Hk. unfold call_. simpl. by rewrite Hk.
Qed.

Lemma sequential_calls_first_function_witness :
  call_ (MkNeuronProcessor [VNeuron 1; VNeuron 2] [first_arg; failing] first_arg
           false (VInt 2) (VInt 1) true)
        true [VNeuronList [VNeuron 1; VNeuron 2]] ∅ info_logger
  = call_ (MkNeuronProcessor [VNeuron 1; VNeuron 2] (replicate 2 first_arg)
             first_arg false (VInt 2) (VInt 1) true)
          true [VNeuronList [VNeuron 1; VNeuron 2]] ∅ info_logger.
Proof.
  by apply (sequential_calls_first_function [VNeuron 1; VNeuron 2] first_arg
              [failing] (VInt 2) (VInt 1) true true).
Defined.

(** The same processor in parallel mode calls each neuron's own function:
    here the second one, which raises. *)
Lemma parallel_calls_each_function :
  (call_ (MkNeuronProcessor [VNeuron 1; VNeuron 2] [first_arg; failing] first_arg
            false (VInt 2) (VInt 1) true)
         true [VNeuronList [VNeuron 1; VNeuron 2]] ∅ info_logger).1
  = Ok (VNeuronList [VNeuron 1; VNeuron 2])
  ∧ (call_ (MkNeuronProcessor [VNeuron 1; VNeuron 2] [first_arg; failing] first_arg
              true (VInt 2) (VInt 1) true)
           true [VNeuronList [VNeuron 1; VNeuron 2]] ∅ info_logger).1
    = Err (ValueError "boom").
Proof. by vm_compute. Qed.

(** ** The sequential loop *)

(** The loop ends at the first call that raises: its exception is the
    outcome, and the logger is as that call left it, whatever work comes
    after. *)
Theorem apply_each_first_failure (f : pyfunc)
  (w1 w2 : list (list value * gmap string value))
  (a : list value) (kw : gmap string value) (rs : list value)
  (lg lg1 lg2 : logger) (e : exn) :
  apply_each f w1 lg = (Ok rs, lg1) ->
  f a kw lg1 = (Err e, lg2) ->
  apply_each f (w1 ++ (a, kw) :: w2) lg = (Err e, lg2).
Proof.
  revert rs lg. induction w1 as [|[a1 kw1] w1 IH]; intros rs lg; simpl.
  - intros [= _ <-] Hf. by rewrite Hf.
  - destruct (f a1 kw1 lg) as [[r|e1] lg'] eqn:E1; [|done].
    destruct (apply_each f w1 lg') as [[rs1|e1] lg''] eqn:E2; [|done].
    intros [= _ <-] Hf. by rewrite (IH rs1 lg' E2 Hf).
Qed.

(** A callable that returns its first argument, and raises on neuron 2. *)
Definition fails_on_two : pyfunc :=
  λ args _ lg,
    match args !! 0%nat with
    | Some (VNeuron 2) => (Err (ValueError "boom"), lg)
    | Some v => (Ok v, lg)
    | None => (Ok VNone, lg)
    end.

Lemma apply_each_first_failure_witness :
  apply_each fails_on_two
             [([VNeuron 1], ∅); ([VNeuron 2], ∅); ([VNeuron 3], ∅)] info_logger
  = (Err (ValueError "boom"), info_logger).
Proof.
  by apply (apply_each_first_failure fails_on_two [([VNeuron 1], ∅)]
              [([VNeuron 3], ∅)] [VNeuron 2] ∅ [VNeuron 1]
              info_logger info_logger info_logger).
Defined.

(** ** What a batch returns *)

(** Over an empty list of neurons no callable is called, and the batch
    returns an empty list of neurons, not [None]. *)
Theorem empty_batch (self : NeuronProcessor) (pool : bool) (args : list value)
  (kwargs : gmap string value) (lg : logger) :
  np_nl self = [] ->
  from_option value_truthy (np_parallel self) (kwargs !! "parallel") = false ->
  call_ self pool args kwargs lg
  = (Ok (VNeuronList []),
     MkLogger (getEffectiveLevel lg) (parent_level lg) (emitted lg)).
Proof. intros Hnl Hp. unfold call_. by rewrite Hnl, Hp. Qed.

Lemma empty_batch_witness :
  call_ (processor failing []) false [VInt 1] ∅ info_logger
  = (Ok (VNeuronList []), info_logger).
Proof. by apply (empty_batch (processor failing [])). Defined.

Lemma assemble_all_none (res : list value) :
  res ≠ [] -> Forall (λ r, r = VNone) res -> assemble res = VNone.
Proof.
  intros Hne Hres. unfold assemble.
  destruct Hres as [|r res -> Hres]; [done|].
  assert (forallb is_None res = true) as Hn.
  { clear Hne. induction res as [|r res IH]; [done|].
    apply Forall_cons in Hres as [-> Hres]. simpl. by apply IH. }
  simpl. by rewrite Hn.
Qed.

(** When the callable returns [None] for each of the neurons, and there
    is at least one, the batch returns [None] rather than a list. *)
Theorem batch_of_none (self : NeuronProcessor) (pool : bool) (args : list value)
  (kwargs : gmap string value) (lg : logger) :
  np_nl self ≠ [] ->
  from_option value_truthy (np_parallel self) (kwargs !! "parallel") = false ->
  (∀ a kw lg0, np_function self a kw lg0 = (Ok VNone, lg0)) ->
  call_ self pool args kwargs lg
  = (Ok VNone, MkLogger (getEffectiveLevel lg) (parent_level lg) (emitted lg)).
Proof.
  intros Hnl Hp Hf. unfold call_. rewrite Hp.
  rewrite (apply_each_pure _ (λ _ _, Ok VNone)) by done.
  set (work := zip _ _).
  assert (Hlen : length work = length (np_nl self)).
  { unfold work. rewrite length_zip_with, length_parsed_args, length_parsed_kwargs.
    lia. }
  assert (Hm : mapM (λ _ : list value * gmap string value, Ok VNone) work
               = Ok (replicate (length work) VNone)).
  { clear. induction work as [|x work IH]; simpl; [done|]. by rewrite IH. }
  rewrite Hm. rewrite assemble_all_none; [done| |].
  - rewrite Hlen. by destruct (np_nl self).
  - by apply Forall_replicate.
Qed.

Definition returns_none : pyfunc := λ _ _ lg, (Ok VNone, lg).

Lemma batch_of_none_witness :
  call_ (processor returns_none three_neurons) false [VNeuronList three_neurons]
        ∅ info_logger
  = (Ok VNone, info_logger).
Proof. by apply (batch_of_none (processor returns_none three_neurons)). Defined.

Lemma logger_restored_on_return_witness :
  level (call_ (processor first_arg [VNeuron 1]) false [VList [VNeuron 1]] ∅
               info_logger).2
  = getEffectiveLevel info_logger.
Proof.
  apply (logger_restored_on_return (processor first_arg [VNeuron 1]) false
           [VList [VNeuron 1]] ∅ info_logger (VNeuronList [VNeuron 1])).
  by vm_compute.
Defined.
